(** * rocm-smi exporter: the field-normalisation and publishing pipeline

    A shallow embedding of [main.py]: the helpers [_is_na], [_to_float],
    [_first_key], [_set_if_not_none], [_get_versions], [getGPUMetrics] and
    the body of the poll loop, followed by the properties of the
    specification that are stated about them.

    Modelling decisions.
    - Python floats are IEEE binary64 numbers, taken from the standard
      library's [spec_float] with [prec = 53] and [emax = 1024]; products
      are [SFmul], so rounding, infinities and NaN are those of the machine.
    - [str] is [string]; field text is ASCII, as the tool emits it. The
      character classes of [strip], [upper] and the patterns are the ASCII
      part of the Python ones.
    - A device record (a JSON object) is a [gmap string pyval]; the snapshot
      keeps the order of its keys, since the loop iterates over it.
    - The metric registry is one finite map from (gauge, label values) to
      the last value set; the code only ever writes to it. The log is the
      list of the records the logger lets through.
    - Exceptions are results: a computation returns [Ok] or [Raise], and a
      run of an external command is given by how it ended. The endless
      loop is driven by the list of the outcomes of its successive runs of
      the status command. *)

From Stdlib Require Import ZArith Bool Ascii String List Lia.
From Stdlib Require Import Floats.SpecFloat.
From stdpp Require Import base option list strings pretty countable gmap fin_maps.

Local Open Scope Z_scope.
Local Open Scope string_scope.
Local Open Scope list_scope.

(** ** Exceptions *)

Inductive exn : Type :=
  | OverflowError        (* float(int) beyond the binary64 range *)
  | ValueError           (* float(str) on a malformed numeral *)
  | CalledProcessError   (* check_output: the command exited non-zero *)
  | OSError              (* check_output: the command could not be started *)
  | JSONDecodeError.     (* json.loads: the payload is not JSON *)

Inductive result (A : Type) : Type :=
  | Ok (a : A)
  | Raise (e : exn).
Arguments Ok {A} a.
Arguments Raise {A} e.

(** ** Binary64 arithmetic *)

Module Float.

Definition prec : Z := 53.
Definition emax : Z := 1024.

Abbreviation float := spec_float.

Definition mul (x y : float) : float := SFmul prec emax x y.

Definition is_finite (x : float) : bool :=
  match x with
  | S754_zero _ | S754_finite _ _ _ => true
  | S754_infinity _ | S754_nan => false
  end.

Fixpoint pow10 (k : nat) : positive :=
  match k with
  | O => 1%positive
  | S k' => (10 * pow10 k')%positive
  end.

(** The correctly rounded value of [(-1)^s * m / 10^k]: what Python
    computes for a decimal numeral with digits [m] and [k] of them after
    the point. Both operands of the division are exact integers, so the
    quotient is rounded once, to nearest even. *)
Definition of_decimal (s : bool) (m : N) (k : nat) : float :=
  match m with
  | N0 => S754_zero s
  | Npos p =>
      SFdiv prec emax (S754_finite s p 0)
                      (S754_finite false (pow10 k) 0)
  end.

(** [float(n)] for a Python [int]: round to nearest even, and
    [OverflowError] when the integer is too large for a double. *)
Definition of_int (n : Z) : result float :=
  let x := binary_normalize prec emax n 0 false in
  if is_finite x then Ok x else Raise OverflowError.

(** The literals of the source. *)
Definition one : float := Eval vm_compute in of_decimal false 10 1.      (* 1.0 *)
Definition tenth : float := Eval vm_compute in of_decimal false 1 1.     (* 0.1 *)

End Float.

(** ** Python values and text *)

(** What [json.loads] puts in a device record: [null], a boolean, an integer
    of any size, a float (also [NaN] and [Infinity], which the parser
    accepts), or a string. *)
Inductive pyval : Type :=
  | VNone
  | VBool (b : bool)
  | VInt (n : Z)
  | VFloat (x : Float.float)
  | VStr (s : string).

Module Text.

Definition code (a : ascii) : N := N_of_ascii a.

(** [str.isspace] on ASCII: tab to carriage return, the four separators
    0x1c to 0x1f, and the space. *)
Definition is_space (a : ascii) : bool :=
  let c := code a in
  ((9 <=? c) && (c <=? 13) || (28 <=? c) && (c <=? 32))%N.

Definition is_digit (a : ascii) : bool :=
  let c := code a in ((48 <=? c) && (c <=? 57))%N.

Definition digit_value (a : ascii) : N := (code a - 48)%N.

Definition is_sign (a : ascii) : bool :=
  (code a =? 43)%N || (code a =? 45)%N.

Definition upper_char (a : ascii) : ascii :=
  let c := code a in
  if ((97 <=? c) && (c <=? 122))%N then ascii_of_N (c - 32) else a.

(** [s.upper()] *)
Fixpoint upper (s : string) : string :=
  match s with
  | EmptyString => EmptyString
  | String a s' => String (upper_char a) (upper s')
  end.

Fixpoint lstrip (s : string) : string :=
  match s with
  | EmptyString => EmptyString
  | String a s' => if is_space a then lstrip s' else s
  end.

Fixpoint rstrip (s : string) : string :=
  match s with
  | EmptyString => EmptyString
  | String a s' =>
      match rstrip s' with
      | EmptyString => if is_space a then EmptyString else String a EmptyString
      | r => String a r
      end
  end.

(** [s.strip()] *)
Definition strip (s : string) : string := lstrip (rstrip s).

(** The longest prefix of decimal digits, and what follows it. *)
Fixpoint span_digits (s : string) : string * string :=
  match s with
  | String a s' =>
      if is_digit a
      then let '(d, r) := span_digits s' in (String a d, r)
      else (EmptyString, s)
  | EmptyString => (EmptyString, EmptyString)
  end.

(** [\d+(?:\.\d+)?] anchored at the start of [s]: the digits are taken
    greedily, then a point only when a digit follows it. *)
Definition match_unsigned (s : string) : option string :=
  match span_digits s with
  | (EmptyString, _) => None
  | (ip, String "." r) =>
      match span_digits r with
      | (EmptyString, _) => Some ip
      | (fp, _) => Some (ip +:+ String "." fp)
      end
  | (ip, _) => Some ip
  end.

(** [_rx_number.match]: [[-+]?\d+(?:\.\d+)?] anchored at the start. A
    sign not followed by a digit makes the attempt at this position
    fail, since the sign itself is not a digit. *)
Definition rx_number_match (s : string) : option string :=
  match s with
  | String a s' =>
      if is_sign a
      then option_map (String a) (match_unsigned s')
      else match_unsigned s
  | EmptyString => None
  end.

(** [_rx_number.search(s)]: the leftmost match; the result is
    [m.group(0)]. *)
Fixpoint rx_number_search (s : string) : option string :=
  match rx_number_match s with
  | Some t => Some t
  | None =>
      match s with
      | String _ s' => rx_number_search s'
      | EmptyString => None
      end
  end.

(** The digits of [s] read as a natural number, continuing from [acc]. *)
Fixpoint read_digits (acc : N) (s : string) : option N :=
  match s with
  | EmptyString => Some acc
  | String a s' =>
      if is_digit a then read_digits (10 * acc + digit_value a)%N s' else None
  end.

(** [float(t)] on the language of the pattern: an optional sign, digits,
    and optionally a point and digits. The code applies [float] to
    [m.group(0)] only; on a text outside that language this definition
    answers [ValueError]. *)
Definition float_of_unsigned (neg : bool) (t : string) : result Float.float :=
  match span_digits t with
  | (EmptyString, _) => Raise ValueError
  | (ip, EmptyString) =>
      match read_digits 0 ip with
      | Some m => Ok (Float.of_decimal neg m 0)
      | None => Raise ValueError
      end
  | (ip, String "." fp) =>
      match fp, read_digits 0 (ip +:+ fp) with
      | String _ _, Some m => Ok (Float.of_decimal neg m (String.length fp))
      | _, _ => Raise ValueError
      end
  | (_, _) => Raise ValueError
  end.

Definition float_of_numeral (t : string) : result Float.float :=
  match t with
  | String a t' =>
      if (code a =? 45)%N then float_of_unsigned true t'
      else if (code a =? 43)%N then float_of_unsigned false t'
      else float_of_unsigned false t
  | EmptyString => Raise ValueError
  end.

End Text.

(** ** Helpers of the exporter *)

(** [isinstance(v, (int, float))]; [bool] is a subclass of [int]. *)
Definition is_number (v : pyval) : bool :=
  match v with
  | VBool _ | VInt _ | VFloat _ => true
  | VNone | VStr _ => false
  end.

Definition _is_na (v : pyval) : bool :=
  match v with
  | VNone => true
  | VBool _ | VInt _ | VFloat _ => false
  | VStr s => String.eqb (Text.upper (Text.strip s)) "N/A"
  end.

(** [float(v)] for a number. *)
Definition float_of_number (v : pyval) : result Float.float :=
  match v with
  | VBool b => Float.of_int (if b then 1 else 0)
  | VInt n => Float.of_int n
  | VFloat x => Ok x
  | VNone | VStr _ => Raise ValueError
  end.

(** [_to_float(v, scale=scale)]: [Ok None] is the Python [None]. A value
    that reaches [str(v)] is a string: [None] is caught by [_is_na] and the
    numbers by [isinstance]. *)
Definition _to_float (v : pyval) (scale : Float.float) : result (option Float.float) :=
  if _is_na v then Ok None
  else if is_number v then
    match float_of_number v with
    | Ok x => Ok (Some (Float.mul x scale))
    | Raise e => Raise e
    end
  else
    match v with
    | VStr s =>
        match Text.rx_number_search s with
        | None => Ok None
        | Some t =>
            match Text.float_of_numeral t with
            | Ok x => Ok (Some (Float.mul x scale))
            | Raise e => Raise e
            end
        end
    | _ => Ok None
    end.

(** [d.get(k, default)] and [d.get(k)] on a record. *)
Definition dict_get_default (d : gmap string pyval) (k : string) (dflt : pyval) : pyval :=
  default dflt (d !! k).

Definition dict_get (d : gmap string pyval) (k : option string) : pyval :=
  match k with
  | Some k' => dict_get_default d k' VNone
  | None => VNone          (* None is not a key of a JSON object *)
  end.

(** [_first_key(d, keys)]: the first name of [keys] that is a key of [d]. *)
Fixpoint _first_key (d : gmap string pyval) (keys : list string) : option string :=
  match keys with
  | [] => None
  | k :: keys' => if bool_decide (is_Some (d !! k)) then Some k else _first_key d keys'
  end.

(** The reconciliation idiom of the poll loop, [m.get(_first_key(m, keys))]. *)
Definition reconcile (m : gmap string pyval) (keys : list string) : pyval :=
  dict_get m (_first_key m keys).

(** Truth value of a Python object, as [or] tests it. *)
Definition truthy (v : pyval) : bool :=
  match v with
  | VNone => false
  | VBool b => b
  | VInt n => negb (n =? 0)%Z
  | VFloat (S754_zero _) => false
  | VFloat _ => true
  | VStr EmptyString => false
  | VStr _ => true
  end.

(** [a or b] (the second operand is pure here, so short-circuiting is not
    observable). *)
Definition py_or (a b : pyval) : pyval := if truthy a then a else b.

(** ** The metric registry *)

Inductive gauge : Type :=
  | gpuEdgeTemperature | gpuJunctionTemperature | gpuMemTemperature
  | gpuUsage | gpuVRAMUsage | umcActivity | mmActivity
  | socketPowerNow | socketPowerAvg | pkgPowerAvg | pkgPowerMax
  | voltageMilliV | fanRpm
  | clkCurrentMHz | clkAverageMHz
  | pcieWidthLanes | pcieSpeedGTs
  | energyAccumulatorUJ | accumulatedEnergyUJ
  | deviceInfo | softwareInfo.

Global Instance gauge_eq_dec : EqDecision gauge.
Proof. solve_decision. Defined.

Definition gauge_index (g : gauge) : positive :=
  match g with
  | gpuEdgeTemperature => 1 | gpuJunctionTemperature => 2 | gpuMemTemperature => 3
  | gpuUsage => 4 | gpuVRAMUsage => 5 | umcActivity => 6 | mmActivity => 7
  | socketPowerNow => 8 | socketPowerAvg => 9 | pkgPowerAvg => 10 | pkgPowerMax => 11
  | voltageMilliV => 12 | fanRpm => 13
  | clkCurrentMHz => 14 | clkAverageMHz => 15
  | pcieWidthLanes => 16 | pcieSpeedGTs => 17
  | energyAccumulatorUJ => 18 | accumulatedEnergyUJ => 19
  | deviceInfo => 20 | softwareInfo => 21
  end%positive.

Definition gauge_of_index (p : positive) : option gauge :=
  match p with
  | 1 => Some gpuEdgeTemperature | 2 => Some gpuJunctionTemperature
  | 3 => Some gpuMemTemperature | 4 => Some gpuUsage | 5 => Some gpuVRAMUsage
  | 6 => Some umcActivity | 7 => Some mmActivity | 8 => Some socketPowerNow
  | 9 => Some socketPowerAvg | 10 => Some pkgPowerAvg | 11 => Some pkgPowerMax
  | 12 => Some voltageMilliV | 13 => Some fanRpm | 14 => Some clkCurrentMHz
  | 15 => Some clkAverageMHz | 16 => Some pcieWidthLanes | 17 => Some pcieSpeedGTs
  | 18 => Some energyAccumulatorUJ | 19 => Some accumulatedEnergyUJ
  | 20 => Some deviceInfo | 21 => Some softwareInfo
  | _ => None
  end%positive.

Global Program Instance gauge_countable : Countable gauge :=
  {| encode := gauge_index; decode := gauge_of_index |}.
Next Obligation. by intros []. Qed.

Definition identity_names : list string := ["device_name"; "device_id"; "subsystem_id"].

(** The label schema each gauge is declared with. *)
Definition labelnames (g : gauge) : list string :=
  match g with
  | voltageMilliV => identity_names ++ ["rail"]
  | clkCurrentMHz | clkAverageMHz => identity_names ++ ["clock"]
  | deviceInfo =>
      identity_names ++ ["vbios"; "gfx_version"; "card_series"; "card_vendor"]
  | softwareInfo => ["driver_version"; "rocm_smi_version"; "rocm_smi_lib_version"]
  | _ => identity_names
  end.

(** A published sample is addressed by its gauge and its label values. *)
Abbreviation sample_key := (gauge * list string)%type.

Inductive level : Type := DEBUG | INFO | WARNING.

Inductive message : Type :=
  | StartedServer | RetrievedMetrics | RefreshedMetrics
  | VersionQueryFailed | SkipSet (g : gauge).

Record state : Type := mkState {
  samples : gmap sample_key Float.float;
  records : list (level * message)
}.

Definition set_sample (k : sample_key) (x : Float.float) (st : state) : state :=
  mkState (<[k := x]> (samples st)) (records st).

(** [logger.setLevel(logging.INFO)]: a DEBUG record is dropped. *)
Definition enabled (l : level) : bool :=
  match l with DEBUG => false | INFO | WARNING => true end.

Definition emit (l : level) (msg : message) (st : state) : state :=
  if enabled l then mkState (samples st) (records st ++ [(l, msg)]) else st.

(** ** Computations: state passing with exceptions *)

Definition M (A : Type) : Type := state → result A * state.

Global Instance M_ret : MRet M := λ A a st, (Ok a, st).
Global Instance M_bind : MBind M := λ A B f c st,
  match c st with
  | (Ok a, st') => f a st'
  | (Raise e, st') => (Raise e, st')
  end.

Definition lift {A} (r : result A) : M A := λ st, (r, st).
Definition modify (f : state → state) : M unit := λ st, (Ok tt, f st).

(** [try: c except Exception as e: h e] *)
Definition try_except {A} (c : M A) (h : exn → M A) : M A := λ st,
  match c st with
  | (Ok a, st') => (Ok a, st')
  | (Raise e, st') => h e st'
  end.

Fixpoint for_each {A} (l : list A) (body : A → M unit) : M unit :=
  match l with
  | [] => mret tt
  | a :: l' => body a ;; for_each l' body
  end.

Definition logger_log (l : level) (msg : message) : M unit := modify (emit l msg).

(** ** The external tool *)

(** How one run of the tool ends: it completes with exit status 0 and
    output [out], it exits with a non-zero status, or it cannot be started
    at all (not installed, not executable). *)
Inductive run (A : Type) : Type :=
  | Completed (out : A)
  | NonZeroExit
  | NotStarted.
Arguments Completed {A} out.
Arguments NonZeroExit {A}.
Arguments NotStarted {A}.

(** [subprocess.check_output] *)
Definition check_output {A} (r : run A) : result A :=
  match r with
  | Completed out => Ok out
  | NonZeroExit => Raise CalledProcessError
  | NotStarted => Raise OSError
  end.

(** The parsed snapshot: device keys (and the key "system") in document
    order, each with its flat record. *)
Abbreviation snapshot := (list (string * gmap string pyval)).

(** The output of the status command, as [json.loads] sees it. *)
Inductive payload : Type :=
  | NotJSON
  | Json (data : snapshot).

Definition json_loads (p : payload) : result snapshot :=
  match p with
  | NotJSON => Raise JSONDecodeError
  | Json data => Ok data
  end.

Module Version.

Definition newline : ascii := ascii_of_N 10.

(** Leading whitespace and the rest. *)
Fixpoint span_space (s : string) : string * string :=
  match s with
  | String a s' =>
      if Text.is_space a
      then let '(w, r) := span_space s' in (String a w, r)
      else (EmptyString, s)
  | EmptyString => (EmptyString, EmptyString)
  end.

(** What [.+] takes: everything up to the end of the line. *)
Fixpoint rest_of_line (s : string) : string :=
  match s with
  | String a s' => if Ascii.eqb a newline then EmptyString else String a (rest_of_line s')
  | EmptyString => EmptyString
  end.

(** The last character of [w] that is not a newline. *)
Fixpoint last_on_line (w : string) : option ascii :=
  match w with
  | EmptyString => None
  | String a w' =>
      match last_on_line w' with
      | Some b => Some b
      | None => if Ascii.eqb a newline then None else Some a
      end
  end.

(** [\s*(.+)] anchored at the start of [s]; the result is group 1. The
    whitespace is taken greedily. When text follows it, the group is
    the rest of that line. When the whitespace runs to the end of the
    input, the matcher gives characters back until [.+] can take one:
    the last one that is not a newline. *)
Definition match_value (s : string) : option string :=
  match span_space s with
  | (w, EmptyString) => option_map (λ a, String a EmptyString) (last_on_line w)
  | (_, r) => Some (rest_of_line r)
  end.

Fixpoint strip_prefix (p s : string) : option string :=
  match p, s with
  | EmptyString, _ => Some s
  | String a p', String b s' => if Ascii.eqb a b then strip_prefix p' s' else None
  | String _ _, EmptyString => None
  end.

(** [re.search(label + r"\s*(.+)", out)], group 1 of the leftmost match. *)
Fixpoint search (label out : string) : option string :=
  match
    match strip_prefix label out with
    | Some r => match_value r
    | None => None
    end
  with
  | Some v => Some v
  | None =>
      match out with
      | String _ out' => search label out'
      | EmptyString => None
      end
  end.

End Version.

(** ** The exporter *)

Section Exporter.

(** [repr] of a float, which [str] uses for a label value that is a JSON
    float. It is a builtin of the interpreter; nothing below depends on
    what it prints. *)
Variable float_repr : Float.float → string.

(** [str(v)] *)
Definition py_str (v : pyval) : string :=
  match v with
  | VNone => "None"
  | VBool true => "True"
  | VBool false => "False"
  | VInt n => pretty n
  | VFloat x => float_repr x
  | VStr s => s
  end.

(** Keyword arguments, in the order they are written. *)
Abbreviation kwargs := (list (string * pyval)).

Fixpoint kwarg (kw : kwargs) (name : string) : pyval :=
  match kw with
  | [] => VNone
  | (n, v) :: kw' => if String.eqb n name then v else kwarg kw' name
  end.

(** [gauge.labels] called with keyword arguments [kw]: the names must be
    exactly those of the schema
    ([sorted(kw) != sorted(labelnames)] raises), and the child is
    addressed by the [str] of each value, in schema order. *)
Definition Gauge_labels (g : gauge) (kw : kwargs) : result (list string) :=
  if decide (kw.*1 ≡ₚ labelnames g)
  then Ok ((λ l, py_str (kwarg kw l)) <$> labelnames g)
  else Raise ValueError.

(** [gauge.labels] with keyword arguments [kw], then [.set(x)]. *)
Definition labels_set (g : gauge) (kw : kwargs) (x : Float.float) : M unit :=
  lv ← lift (Gauge_labels g kw);
  modify (set_sample (g, lv) x).

Definition _set_if_not_none (g : gauge) (labels : kwargs) (value : option Float.float) : M unit :=
  match value with
  | None => mret tt
  | Some x =>
      try_except (labels_set g labels x) (λ _, logger_log DEBUG (SkipSet g))
  end.

(** [m.get(k)] *)
Definition get (m : gmap string pyval) (k : string) : pyval :=
  dict_get_default m k VNone.

(** The recurring call [_set_if_not_none(g, labels, _to_float(v))]; the
    normaliser is called with its default scale 1.0, and its argument is
    evaluated before the call. *)
Definition set_from (g : gauge) (labels : kwargs) (v : pyval) : M unit :=
  x ← lift (_to_float v Float.one);
  _set_if_not_none g labels x.

(** The loops over (field, label) pairs:
    [v = _to_float(m.get(key))], and when [v] is not [None] a [set(v)] on
    the child for [labels] extended with [sub=name]. *)
Definition set_sub (g : gauge) (labels : kwargs) (sub : string)
    (m : gmap string pyval) (entry : string * string) : M unit :=
  let '(key, name) := entry in
  v ← lift (_to_float (get m key) Float.one);
  match v with
  | Some x => labels_set g (labels ++ [(sub, VStr name)]) x
  | None => mret tt
  end.

Section Device.

Variable m : gmap string pyval.

Definition labels : kwargs :=
  [ ("device_name", dict_get_default m "Device Name" (VStr "unknown"));
    ("device_id", dict_get_default m "Device ID" (VStr "unknown"));
    ("subsystem_id", dict_get_default m "Subsystem ID" (VStr "unknown")) ].

Definition gfx_version : pyval :=
  py_or (dict_get_default m "GFX Version" (VStr ""))
        (dict_get_default m "GFX version" (VStr "")).

Definition device_info : M unit :=
  labels_set deviceInfo
    [ ("device_name", kwarg labels "device_name");
      ("device_id", kwarg labels "device_id");
      ("subsystem_id", kwarg labels "subsystem_id");
      ("vbios", dict_get_default m "VBIOS version" (VStr ""));
      ("gfx_version", gfx_version);
      ("card_series", dict_get_default m "Card Series" (VStr ""));
      ("card_vendor", dict_get_default m "Card Vendor" (VStr "")) ]
    Float.one.

Definition temperatures : M unit :=
  set_from gpuEdgeTemperature labels
    (reconcile m ["Temperature (Sensor edge) (C)"; "temperature_edge (C)"]) ;;
  set_from gpuJunctionTemperature labels
    (reconcile m ["Temperature (Sensor junction) (C)"; "temperature_hotspot (C)"]) ;;
  set_from gpuMemTemperature labels
    (reconcile m ["Temperature (Sensor memory) (C)"; "temperature_mem (C)"]).

Definition usage : M unit :=
  set_from gpuUsage labels
    (reconcile m ["GPU use (%)"; "average_gfx_activity (%)"]) ;;
  set_from gpuVRAMUsage labels (get m "GPU Memory Allocated (VRAM%)") ;;
  set_from umcActivity labels (get m "average_umc_activity (%)") ;;
  set_from mmActivity labels (get m "average_mm_activity (%)").

Definition power : M unit :=
  let now_power_key :=
    _first_key m ["Current Socket Graphics Package Power (W)";
                  "current_socket_power (W)"] in
  let avg_sock_key := _first_key m ["average_socket_power (W)"] in
  let avg_pkg_key := _first_key m ["Average Graphics Package Power (W)"] in
  let max_pkg_key := _first_key m ["Max Graphics Package Power (W)"] in
  set_from socketPowerNow labels (dict_get m now_power_key) ;;
  set_from socketPowerAvg labels (dict_get m avg_sock_key) ;;
  set_from pkgPowerAvg labels (dict_get m avg_pkg_key) ;;
  set_from pkgPowerMax labels (dict_get m max_pkg_key).

Definition voltages : M unit :=
  for_each
    [ ("voltage_soc (mV)", "soc"); ("voltage_gfx (mV)", "gfx");
      ("voltage_mem (mV)", "mem"); ("Voltage (mV)", "vcore") ]
    (set_sub voltageMilliV labels "rail" m).

Definition fan : M unit :=
  set_from fanRpm labels (get m "current_fan_speed (rpm)").

Definition clocks_current : M unit :=
  for_each
    [ ("current_gfxclk (MHz)", "gfxclk"); ("current_socclk (MHz)", "socclk");
      ("current_uclk (MHz)", "uclk"); ("current_vclk0 (MHz)", "vclk0");
      ("current_dclk0 (MHz)", "dclk0") ]
    (set_sub clkCurrentMHz labels "clock" m).

Definition clocks_average : M unit :=
  for_each
    [ ("average_gfxclk_frequency (MHz)", "gfxclk");
      ("average_socclk_frequency (MHz)", "socclk");
      ("average_uclk_frequency (MHz)", "uclk");
      ("average_vclk0_frequency (MHz)", "vclk0");
      ("average_dclk0_frequency (MHz)", "dclk0") ]
    (set_sub clkAverageMHz labels "clock" m).

(** The value the normaliser returns for the link speed (the local
    [speed_01]): it is called with the default scale. *)
Definition speed_01 : result (option Float.float) :=
  _to_float (get m "pcie_link_speed (0.1 GT/s)") Float.one.

Definition pcie : M unit :=
  width ← lift (_to_float (get m "pcie_link_width (Lanes)") Float.one);
  match width with
  | Some w => labels_set pcieWidthLanes labels w
  | None => mret tt
  end ;;
  speed_01 ← lift speed_01;
  match speed_01 with
  | Some s => labels_set pcieSpeedGTs labels (Float.mul s Float.tenth)
  | None => mret tt
  end.

Definition energy : M unit :=
  set_from energyAccumulatorUJ labels
    (reconcile m ["energy_accumulator (15.259uJ (2^-16))"; "Energy counter"]) ;;
  set_from accumulatedEnergyUJ labels (get m "Accumulated Energy (uJ)").

(** The body of [for card, m in data.items()] for a device. *)
Definition process_device : M unit :=
  device_info ;;
  temperatures ;;
  usage ;;
  power ;;
  voltages ;;
  fan ;;
  clocks_current ;;
  clocks_average ;;
  pcie ;;
  energy.

End Device.

(** The label values of a device's samples: the [str] of its identity
    fields. *)
Definition identity (m : gmap string pyval) : list string :=
  [ py_str (dict_get_default m "Device Name" (VStr "unknown"));
    py_str (dict_get_default m "Device ID" (VStr "unknown"));
    py_str (dict_get_default m "Subsystem ID" (VStr "unknown")) ].

(** [data["system"]] when "system" is a key of [data]. *)
Fixpoint item (data : snapshot) (key : string) : option (gmap string pyval) :=
  match data with
  | [] => None
  | (k, m) :: data' => if String.eqb k key then Some m else item data' key
  end.

Definition software_info (rsmi_ver rlib_ver : string) (data : snapshot) : M unit :=
  match item data "system" with
  | Some sys =>
      match sys !! "Driver version" with
      | Some dv =>
          let driver_version := Text.strip (py_str dv) in
          labels_set softwareInfo
            [ ("driver_version", VStr driver_version);
              ("rocm_smi_version", VStr rsmi_ver);
              ("rocm_smi_lib_version", VStr rlib_ver) ]
            Float.one
      | None => mret tt
      end
  | None => mret tt
  end.

Definition process_snapshot (rsmi_ver rlib_ver : string) (data : snapshot) : M unit :=
  software_info rsmi_ver rlib_ver data ;;
  for_each data (λ '(card, m),
    if String.eqb card "system" then mret tt else process_device m).

Definition getGPUMetrics (r : run payload) : M snapshot :=
  out ← lift (check_output r);
  metrics ← lift (json_loads out);
  logger_log INFO RetrievedMetrics ;;
  mret metrics.

(** One turn of [while True]; the sleep has no effect on the state. *)
Definition poll_cycle (rsmi_ver rlib_ver : string) (r : run payload) : M unit :=
  data ← getGPUMetrics r;
  process_snapshot rsmi_ver rlib_ver data ;;
  logger_log INFO RefreshedMetrics.

(** The loop, driven by the outcomes of the successive runs of the status
    command. An exception leaves the loop, and with it the process. *)
Definition poll_loop (rsmi_ver rlib_ver : string) (runs : list (run payload)) : M unit :=
  for_each runs (poll_cycle rsmi_ver rlib_ver).

Definition is_CalledProcessError (e : exn) : bool :=
  match e with CalledProcessError => true | _ => false end.

Definition _get_versions (r : run string) : M (string * string) :=
  λ st,
    match check_output r with
    | Ok out =>
        let m1 := Version.search "ROCM-SMI version:" out in
        let m2 := Version.search "ROCM-SMI-LIB version:" out in
        let rsmi_ver := match m1 with Some g => Text.strip g | None => "" end in
        let rlib_ver := match m2 with Some g => Text.strip g | None => "" end in
        (Ok (rsmi_ver, rlib_ver), st)
    | Raise e =>
        if is_CalledProcessError e
        then (logger_log WARNING VersionQueryFailed ;; mret ("", "")) st
        else (Raise e, st)
    end.

(** The [__main__] block. *)
Definition main (version_run : run string) (runs : list (run payload)) : M unit :=
  logger_log INFO StartedServer ;;
  '(rsmi_ver, rlib_ver) ← _get_versions version_run;
  poll_loop rsmi_ver rlib_ver runs.

End Exporter.

(** ** Vocabulary of the specification *)

Module Sentinel.

Fixpoint all_space (s : string) : bool :=
  match s with
  | EmptyString => true
  | String a s' => Text.is_space a && all_space s'
  end.

(** "N/A" in any letter case. *)
Definition spelling (core : string) : Prop :=
  core = "N/A" ∨ core = "N/a" ∨ core = "n/A" ∨ core = "n/a".

(** The textual forms the specification calls the sentinel: "N/A" in any
    case, with whitespace around it. *)
Definition matches (s : string) : Prop :=
  ∃ pre core post,
    s = pre +:+ core +:+ post ∧
    all_space pre = true ∧ all_space post = true ∧ spelling core.

End Sentinel.

(** A value is "no value" for the specification when it is structurally
    absent or a sentinel text. *)
Definition absent_or_sentinel (v : pyval) : Prop :=
  v = VNone ∨ ∃ s, v = VStr s ∧ Sentinel.matches s.

(** A text "contains a decimal number" exactly when it contains a digit. *)
Fixpoint has_digit (s : string) : bool :=
  match s with
  | EmptyString => false
  | String a s' => Text.is_digit a || has_digit s'
  end.

Fixpoint all_digits (s : string) : bool :=
  match s with
  | EmptyString => true
  | String a s' => Text.is_digit a && all_digits s'
  end.

(** "The normaliser never fails and its result is finite", at one input. *)
Definition normalizer_total_at (v : pyval) (scale : Float.float) : Prop :=
  ∃ r, _to_float v scale = Ok r ∧
       (r = None ∨ ∃ x, r = Some x ∧ Float.is_finite x = true).

(** The snapshot could not be acquired: the status command exited with a
    non-zero status, or what it printed is not JSON. *)
Definition acquisition_fails (r : run payload) : Prop :=
  r = NonZeroExit ∨ r = Completed NotJSON.

Definition empty_state : state := mkState ∅ [].

(** A printer to run the exporter with; the properties hold for any. *)
Definition sample_repr (x : Float.float) : string :=
  match x with
  | S754_zero false => "0.0"
  | S754_zero true => "-0.0"
  | S754_infinity false => "inf"
  | S754_infinity true => "-inf"
  | S754_nan => "nan"
  | S754_finite s m e =>
      (if s then "-" else "") +:+ pretty (Zpos m) +:+ "*2**" +:+ pretty e
  end.

(** The logical metrics of the device loop, as the specification lists
    them: the gauge, the value of its sub-dimension label (a rail or a
    clock domain) when it has one, and the candidate field names. *)
Record logical_metric : Type := LogicalMetric {
  lm_gauge : gauge;
  lm_sub : list string;
  lm_candidates : list string
}.

Definition logical_metrics : list logical_metric :=
  [ LogicalMetric gpuEdgeTemperature []
      ["Temperature (Sensor edge) (C)"; "temperature_edge (C)"];
    LogicalMetric gpuJunctionTemperature []
      ["Temperature (Sensor junction) (C)"; "temperature_hotspot (C)"];
    LogicalMetric gpuMemTemperature []
      ["Temperature (Sensor memory) (C)"; "temperature_mem (C)"];
    LogicalMetric gpuUsage [] ["GPU use (%)"; "average_gfx_activity (%)"];
    LogicalMetric gpuVRAMUsage [] ["GPU Memory Allocated (VRAM%)"];
    LogicalMetric umcActivity [] ["average_umc_activity (%)"];
    LogicalMetric mmActivity [] ["average_mm_activity (%)"];
    LogicalMetric socketPowerNow []
      ["Current Socket Graphics Package Power (W)"; "current_socket_power (W)"];
    LogicalMetric socketPowerAvg [] ["average_socket_power (W)"];
    LogicalMetric pkgPowerAvg [] ["Average Graphics Package Power (W)"];
    LogicalMetric pkgPowerMax [] ["Max Graphics Package Power (W)"];
    LogicalMetric voltageMilliV ["soc"] ["voltage_soc (mV)"];
    LogicalMetric voltageMilliV ["gfx"] ["voltage_gfx (mV)"];
    LogicalMetric voltageMilliV ["mem"] ["voltage_mem (mV)"];
    LogicalMetric voltageMilliV ["vcore"] ["Voltage (mV)"];
    LogicalMetric fanRpm [] ["current_fan_speed (rpm)"];
    LogicalMetric clkCurrentMHz ["gfxclk"] ["current_gfxclk (MHz)"];
    LogicalMetric clkCurrentMHz ["socclk"] ["current_socclk (MHz)"];
    LogicalMetric clkCurrentMHz ["uclk"] ["current_uclk (MHz)"];
    LogicalMetric clkCurrentMHz ["vclk0"] ["current_vclk0 (MHz)"];
    LogicalMetric clkCurrentMHz ["dclk0"] ["current_dclk0 (MHz)"];
    LogicalMetric clkAverageMHz ["gfxclk"] ["average_gfxclk_frequency (MHz)"];
    LogicalMetric clkAverageMHz ["socclk"] ["average_socclk_frequency (MHz)"];
    LogicalMetric clkAverageMHz ["uclk"] ["average_uclk_frequency (MHz)"];
    LogicalMetric clkAverageMHz ["vclk0"] ["average_vclk0_frequency (MHz)"];
    LogicalMetric clkAverageMHz ["dclk0"] ["average_dclk0_frequency (MHz)"];
    LogicalMetric pcieWidthLanes [] ["pcie_link_width (Lanes)"];
    LogicalMetric pcieSpeedGTs [] ["pcie_link_speed (0.1 GT/s)"];
    LogicalMetric energyAccumulatorUJ []
      ["energy_accumulator (15.259uJ (2^-16))"; "Energy counter"];
    LogicalMetric accumulatedEnergyUJ [] ["Accumulated Energy (uJ)"] ].

(** The reconciled source value of a logical metric in a record, and what
    the normaliser makes of it at the call site (default scale). *)
Definition lm_source (m : gmap string pyval) (lm : logical_metric) : pyval :=
  reconcile m (lm_candidates lm).

Definition lm_normalized (m : gmap string pyval) (lm : logical_metric)
  : result (option Float.float) :=
  _to_float (lm_source m lm) Float.one.

(** The sample of a logical metric for a device. *)
Definition lm_key (float_repr : Float.float → string)
    (m : gmap string pyval) (lm : logical_metric) : sample_key :=
  (lm_gauge lm, identity float_repr m ++ lm_sub lm).

(** What lies between the normaliser's result and the value handed to
    [set]: nothing, except for the PCIe link speed. *)
Definition lm_at_publish (lm : logical_metric) (x : Float.float) : Float.float :=
  if decide (lm_gauge lm = pcieSpeedGTs) then Float.mul x Float.tenth else x.

(** Two judgements on a computation: it leaves the sample [k] as it is,
    however it ends; when it completes, the sample [k] holds [x]. *)
Definition preserves {A} (k : sample_key) (c : M A) : Prop :=
  ∀ st, samples (c st).2 !! k = samples st !! k.

Definition sets (k : sample_key) (x : Float.float) (c : M unit) : Prop :=
  ∀ st st', c st = (Ok tt, st') → samples st' !! k = Some x.

(** A label set belongs to a logical metric with a sub-dimension when its
    last value is that rail or clock domain. *)
Definition sub_matches (lm : logical_metric) (lv : list string) : Prop :=
  match lm_sub lm with
  | [] => True
  | name :: _ => last lv = Some name
  end.

(** "Nothing happens between normalisation and publishing" for a logical
    metric of a record: the sample holds the very number the normaliser
    returned. *)
Definition publishes_normalized (repr : Float.float → string)
    (m : gmap string pyval) (lm : logical_metric) : Prop :=
  ∀ x st st',
    lm_normalized m lm = Ok (Some x) →
    process_device repr m st = (Ok tt, st') →
    samples st' !! lm_key repr m lm = Some x.

Definition pcie_speed_metric : logical_metric :=
  LogicalMetric pcieSpeedGTs [] ["pcie_link_speed (0.1 GT/s)"].

Definition vram_metric : logical_metric :=
  LogicalMetric gpuVRAMUsage [] ["GPU Memory Allocated (VRAM%)"].

(** Records and numbers of the examples. *)
Definition usage_record : gmap string pyval :=
  {[ "Device Name" := VStr "X"; "GPU use (%)" := VStr "37.5%" ]}.

Definition pcie_record : gmap string pyval :=
  {[ "pcie_link_speed (0.1 GT/s)" := VInt 160 ]}.

Definition overflow_record : gmap string pyval :=
  {[ "temperature_edge (C)" := VInt (10 ^ 400);
     "pcie_link_speed (0.1 GT/s)" := VInt 160 ]}.

Definition numeric_gfx_record : gmap string pyval :=
  {[ "GFX Version" := VInt 9; "GFX version" := VStr "gfx1100" ]}.

Definition f37_5 : Float.float := Eval vm_compute in Float.of_decimal false 375 1.
Definition f16 : Float.float := Eval vm_compute in Float.of_decimal false 16 0.
Definition f160 : Float.float := Eval vm_compute in Float.of_decimal false 160 0.

Definition device_X : list string := ["X"; "unknown"; "unknown"].

Definition empty_gfx_record : gmap string pyval :=
  {[ "GFX Version" := VStr EmptyString; "GFX version" := VStr "gfx1100" ]}.

Definition both_keys_record : gmap string pyval :=
  {[ "old_key" := VInt 1; "new_key" := VInt 2 ]}.

Definition edge_record : gmap string pyval := {[ "b" := VStr "45.0C" ]}.

(** Output of the version command in which only the first pattern finds
    something. *)
Definition version_output : string :=
  "ROCM-SMI version: 2.3.1" +:+ String Version.newline "usage: rocm-smi".

(** One good cycle, then a payload that is not JSON, then a cycle that is
    never reached. *)
Definition one_cycle : list (run payload) :=
  [Completed (Json [("card0", usage_record)])].

Definition after_one_cycle : state :=
  (poll_loop sample_repr EmptyString EmptyString one_cycle empty_state).2.

(** The first operand of [or] is the one taken, and the two differ. *)
Definition first_gfx_wins (m : gmap string pyval) (v : pyval) : Prop :=
  m !! "GFX Version" = Some v ∧ gfx_version m = v ∧
  gfx_version m ≠ dict_get_default m "GFX version" (VStr "").

(** ** Vocabulary of the further properties *)

(** A text starts with a decimal digit. *)
Definition starts_with_digit (s : string) : bool :=
  match s with
  | String a _ => Text.is_digit a
  | EmptyString => false
  end.

(** An unsigned decimal numeral: digits, and optionally a point and
    digits. *)
Definition decimal_numeral (t : string) : Prop :=
  ∃ ip, all_digits ip = true ∧ ip ≠ "" ∧
        (t = ip ∨ ∃ fp, all_digits fp = true ∧ fp ≠ "" ∧ t = ip +:+ String "." fp).

(** What may follow a reading: nothing, or text that starts with neither
    a digit nor a point (a unit, a blank, a bracket). *)
Definition unit_suffix (u : string) : Prop :=
  match u with
  | EmptyString => True
  | String c _ => Text.is_digit c = false ∧ c ≠ "."%char
  end.

Fixpoint no_newline (s : string) : bool :=
  match s with
  | EmptyString => true
  | String a s' => negb (Ascii.eqb a Version.newline) && no_newline s'
  end.

(** A label value is clean when it sits on one line and has no whitespace
    around it. *)
Definition clean (s : string) : Prop :=
  no_newline s = true ∧ Text.strip s = s.

(** The writes of a computation, in the order they are made. *)
Abbreviation write := (sample_key * Float.float)%type.

Fixpoint apply_writes (ws : list write) (s : gmap sample_key Float.float)
  : gmap sample_key Float.float :=
  match ws with
  | [] => s
  | (k, x) :: ws' => apply_writes ws' (<[k := x]> s)
  end.

(** The value the writes [ws] leave under [k]: that of the last write to
    [k], if there is one. *)
Fixpoint written (ws : list write) (k : sample_key) : option Float.float :=
  match ws with
  | [] => None
  | (k', x) :: ws' =>
      match written ws' k with
      | Some y => Some y
      | None => if decide (k' = k) then Some x else None
      end
  end.

(** [c] is a writer: how it ends, what it writes and what it logs are
    fixed by [c] alone, whatever the state it starts from. *)
Definition writer {A} (c : M A) (r : result A) (ws : list write)
    (msgs : list (level * message)) : Prop :=
  ∀ st, c st = (r, mkState (apply_writes ws (samples st)) (records st ++ msgs)).

(** A writer all of whose writes satisfy [P]. *)
Definition writes_only {A} (P : write → Prop) (c : M A) : Prop :=
  ∃ r ws msgs, writer c r ws msgs ∧ Forall P ws.

(** The same, and nothing is logged. *)
Definition quietly_writes_only {A} (P : write → Prop) (c : M A) : Prop :=
  ∃ r ws, writer c r ws [] ∧ Forall P ws.

Definition is_info (g : gauge) : Prop := g = deviceInfo ∨ g = softwareInfo.

(** Every sample of an info gauge is the constant 1. *)
Definition info_is_one (s : gmap sample_key Float.float) : Prop :=
  ∀ g lv x, s !! (g, lv) = Some x → is_info g → x = Float.one.

(** A write of the device loop for the record [m]: a per-device gauge or
    the device-info marker, under the identity of [m], and 1 for the
    marker. *)
Definition device_write (repr : Float.float → string) (m : gmap string pyval)
    (w : write) : Prop :=
  take 3 w.1.2 = identity repr m ∧ w.1.1 ≠ softwareInfo ∧
  (w.1.1 = deviceInfo → w.2 = Float.one).

(** A write of a cycle: info gauges are only ever set to 1. *)
Definition cycle_write (w : write) : Prop := is_info w.1.1 → w.2 = Float.one.

(** The entries of a snapshot that are devices. *)
Definition devices (data : snapshot) : snapshot :=
  filter (λ e, e.1 ≠ "system") data.


(** [label] starts at one of the positions of [pre] in [pre +:+ rest]. *)
Fixpoint occurs_before (label pre rest : string) : bool :=
  match pre with
  | EmptyString => false
  | String _ p =>
      match Version.strip_prefix label (pre +:+ rest) with
      | Some _ => true
      | None => occurs_before label p rest
      end
  end.

(** The output [out] of the version command gives [v] for [label]: the
    first occurrence of [label] in [out] is followed by whitespace and
    then by [v], which starts with a character that is not whitespace
    and runs to the end of its line. *)
Definition version_line (label out v : string) : Prop :=
  ∃ pre w tail,
    out = pre +:+ label +:+ w +:+ v +:+ tail ∧
    occurs_before label pre (label +:+ w +:+ v +:+ tail) = false ∧
    Sentinel.all_space w = true ∧
    (∃ c v', v = String c v' ∧ Text.is_space c = false) ∧
    no_newline v = true ∧
    (tail = "" ∨ ∃ t, tail = String Version.newline t).

(** Two version lines with carriage returns before the line feeds. *)
Definition rsmi_line : string := "2.3.1" +:+ String (ascii_of_N 13) "".
Definition rlib_line : string := "7.5.0" +:+ String (ascii_of_N 13) "".
Definition versions_output : string :=
  "ROCM-SMI version: " +:+ rsmi_line +:+
  String Version.newline ("ROCM-SMI-LIB version: " +:+ rlib_line +:+
  String Version.newline "").

(** A snapshot whose device record raises, followed by the system
    entry. *)
Definition system_record : gmap string pyval :=
  {[ "Driver version" := VStr " 6.1 " ]}.

Definition failing_snapshot : snapshot :=
  [("card0", overflow_record); ("system", system_record)].

(** A field value that the normaliser can convert: anything but an
    integer beyond the range of a double. *)
Definition representable (v : pyval) : bool :=
  match v with
  | VInt n => match Float.of_int n with Ok _ => true | Raise _ => false end
  | _ => true
  end.

(** A record all of whose field values are representable; such are the
    records whose values are all text. *)
Definition healthy_record (m : gmap string pyval) : Prop :=
  map_Forall (λ _ v, representable v = true) m.

(** A run of the status command that exits with status 0 and whose output
    [json.loads] accepts, returning a snapshot (an object of flat records)
    whose device records are healthy. Output that [json.loads] rejects is
    no such run, also when it is valid JSON (an integer literal longer than
    the interpreter's digit limit raises [ValueError] there). The system
    record may hold anything. *)
Definition healthy_run (r : run payload) : Prop :=
  ∃ out data,
    check_output r = Ok out ∧ json_loads out = Ok data ∧
    Forall (λ e, healthy_record e.2) (devices data).

(** [c] returns normally from every state. *)
Definition succeeds {A} (c : M A) : Prop := ∀ st, ∃ a, (c st).1 = Ok a.

(** A named record with an integer beyond the range of a double. *)
Definition named_overflow_record : gmap string pyval :=
  {[ "Device Name" := VStr "Y"; "temperature_edge (C)" := VInt (10 ^ 400) ]}.

(** A snapshot in which an unnamed card stands between a named card and
    the system entry. *)
Definition cards_before : snapshot := [("card0", usage_record)].

(** A second unnamed card, with a slower link; [8.0]. *)
Definition slower_record : gmap string pyval :=
  {[ "pcie_link_speed (0.1 GT/s)" := VInt 80 ]}.

Definition f8 : Float.float := Eval vm_compute in Float.of_decimal false 8 0.

(** The same, with a card whose record raises at the end. *)
Definition cards_after_failing : snapshot :=
  [("system", system_record); ("card2", named_overflow_record)].

(** * Properties *)

(** ** The sentinel *)

Module SentinelFacts.
Import Sentinel.

Lemma rstrip_space w : all_space w = true → Text.rstrip w = "".
Proof.
  induction w as [|a w IH]; simpl; [done|].
  intros [Ha Hw]%andb_true_iff. by rewrite IH, Ha.
Qed.

Lemma rstrip_app_space t post :
  all_space post = true → Text.rstrip (t +:+ post) = Text.rstrip t.
Proof.
  intros Hpost. induction t as [|a t IH]; simpl.
  - by apply rstrip_space.
  - by rewrite IH.
Qed.

Lemma rstrip_app_kept pre t :
  Text.rstrip t ≠ "" → Text.rstrip (pre +:+ t) = pre +:+ Text.rstrip t.
Proof.
  intros Ht. induction pre as [|a pre IH]; simpl; [done|].
  rewrite IH. destruct pre; simpl; [|done].
  by destruct (Text.rstrip t).
Qed.

Lemma lstrip_app_space pre t :
  all_space pre = true → Text.lstrip (pre +:+ t) = Text.lstrip t.
Proof.
  induction pre as [|a pre IH]; simpl; [done|].
  intros [Ha Hpre]%andb_true_iff. rewrite Ha. by apply IH.
Qed.

Lemma strip_padded pre core post :
  all_space pre = true → all_space post = true → Text.rstrip core ≠ "" →
  Text.strip (pre +:+ core +:+ post) = Text.lstrip (Text.rstrip core).
Proof.
  intros Hpre Hpost Hcore. unfold Text.strip.
  rewrite rstrip_app_kept by (by rewrite rstrip_app_space).
  by rewrite lstrip_app_space, rstrip_app_space.
Qed.

Lemma is_na_matches s : matches s → _is_na (VStr s) = true.
Proof.
  intros (pre & core & post & -> & Hpre & Hpost & Hcore). simpl.
  rewrite strip_padded by (done || by destruct Hcore as [->|[->|[->| ->]]]).
  by destruct Hcore as [->|[->|[->| ->]]].
Qed.

(** The converse: the test of the code accepts nothing but these texts. *)

Lemma append_cons a (s t : string) : String a s +:+ t = String a (s +:+ t).
Proof. reflexivity. Qed.

Lemma app_assoc_string (a b c : string) : (a +:+ b) +:+ c = a +:+ b +:+ c.
Proof.
  induction a as [|x a IH]; [done|]. by rewrite !append_cons, IH.
Qed.

Lemma lstrip_decompose s :
  ∃ pre, s = pre +:+ Text.lstrip s ∧ all_space pre = true.
Proof.
  induction s as [|a s (pre & Hs & Hpre)]; [by exists ""|].
  simpl. destruct (Text.is_space a) eqn:Ha.
  - exists (String a pre). rewrite append_cons, <- Hs. simpl. by rewrite Ha, Hpre.
  - by exists "".
Qed.

Lemma rstrip_decompose s :
  ∃ post, s = Text.rstrip s +:+ post ∧ all_space post = true.
Proof.
  induction s as [|a s (post & Hs & Hpost)]; [by exists ""|].
  simpl. destruct (Text.rstrip s) as [|b r] eqn:Hr.
  - change ("" +:+ post) with post in Hs. subst s.
    destruct (Text.is_space a) eqn:Ha.
    + exists (String a post). simpl. by rewrite Ha, Hpost.
    + by exists post.
  - exists post. split; [|done]. rewrite append_cons. by rewrite <- Hs.
Qed.

Lemma strip_decompose s :
  ∃ pre post,
    s = pre +:+ Text.strip s +:+ post ∧ all_space pre = true ∧ all_space post = true.
Proof.
  destruct (rstrip_decompose s) as (post & Hs & Hpost).
  destruct (lstrip_decompose (Text.rstrip s)) as (pre & Hr & Hpre).
  exists pre, post. split; [|done].
  unfold Text.strip. by rewrite <- app_assoc_string, <- Hr.
Qed.

Lemma upper_char_N a : Text.upper_char a = "N"%char → a = "N"%char ∨ a = "n"%char.
Proof. destruct a as [[] [] [] [] [] [] [] []]; vm_compute; intros; try discriminate; auto. Qed.

Lemma upper_char_A a : Text.upper_char a = "A"%char → a = "A"%char ∨ a = "a"%char.
Proof. destruct a as [[] [] [] [] [] [] [] []]; vm_compute; intros; try discriminate; auto. Qed.

Lemma upper_char_slash a : Text.upper_char a = "/"%char → a = "/"%char.
Proof. destruct a as [[] [] [] [] [] [] [] []]; vm_compute; intros; try discriminate; auto. Qed.

Lemma upper_spelling t : Text.upper t = "N/A" → spelling t.
Proof.
  destruct t as [|a [|b [|c [|d t]]]]; try discriminate. simpl.
  intros [= Ha%upper_char_N Hb%upper_char_slash Hc%upper_char_A]. subst b.
  unfold spelling. destruct Ha as [-> | ->], Hc as [-> | ->]; auto.
Qed.

Lemma matches_is_na s : _is_na (VStr s) = true → matches s.
Proof.
  simpl. intros Hs%String.eqb_eq%upper_spelling.
  destruct (strip_decompose s) as (pre & post & Hdec & Hpre & Hpost).
  by exists pre, (Text.strip s), post.
Qed.

End SentinelFacts.

Lemma is_na_absent_or_sentinel v : absent_or_sentinel v → _is_na v = true.
Proof.
  intros [-> | (s & -> & Hs)]; [done|]. by apply SentinelFacts.is_na_matches.
Qed.

(** The absence rule of the specification and the test of the code agree. *)
Lemma is_na_iff v : _is_na v = true ↔ absent_or_sentinel v.
Proof.
  split; [|apply is_na_absent_or_sentinel].
  destruct v as [| | | |s]; try discriminate; [by left|].
  intros Hs. right. exists s. split; [done|]. by apply SentinelFacts.matches_is_na.
Qed.

(** C2. A value that is structurally absent, or a text that is the sentinel
    "N/A" in any letter case with whitespace around it, is normalised to
    "no value", whatever the scale. *)
Theorem to_float_sentinel_is_none (v : pyval) (scale : Float.float) :
  absent_or_sentinel v →
  _is_na v = true ∧ _to_float v scale = Ok None.
Proof.
  intros Hv. pose proof (is_na_absent_or_sentinel v Hv) as Hna.
  split; [done|]. unfold _to_float. by rewrite Hna.
Qed.

Lemma to_float_sentinel_is_none_witness :
  _is_na (VStr "  n/A ") = true ∧ _to_float (VStr "  n/A ") Float.tenth = Ok None.
Proof.
  apply (to_float_sentinel_is_none (VStr "  n/A ") Float.tenth).
  right. exists "  n/A ". split; [reflexivity|].
  exists "  ", "n/A", " ". unfold Sentinel.spelling. repeat split; auto.
Defined.

(** ** The reconciler *)

Lemma first_key_none m keys :
  Forall (λ k, m !! k = None) keys → _first_key m keys = None.
Proof.
  induction 1 as [|k keys Hk _ IH]; simpl; [done|].
  rewrite bool_decide_eq_false_2; [done|]. rewrite Hk. by intros [? ?].
Qed.

Lemma first_key_skip m pre keys :
  Forall (λ k, m !! k = None) pre → _first_key m (pre ++ keys)%list = _first_key m keys.
Proof.
  induction 1 as [|k pre Hk _ IH]; simpl; [done|].
  rewrite bool_decide_eq_false_2; [done|]. rewrite Hk. by intros [? ?].
Qed.

Lemma reconcile_first m pre k post v :
  Forall (λ k', m !! k' = None) pre → m !! k = Some v →
  reconcile m (pre ++ k :: post)%list = v.
Proof.
  intros Hpre Hk. unfold reconcile. rewrite first_key_skip by done. simpl.
  rewrite bool_decide_eq_true_2 by (by rewrite Hk).
  unfold dict_get, dict_get_default. by rewrite Hk.
Qed.

(** C3. The reconciler yields the value stored under the first candidate
    that is a key of the record, and "no value" when no candidate is a key;
    with candidates "new_key", "old_key" and both present, the value under
    "new_key" is returned. *)
Theorem reconcile_first_present (m : gmap string pyval) (keys : list string) :
  (∀ pre k post v,
      keys = (pre ++ k :: post)%list →
      Forall (λ k', m !! k' = None) pre → m !! k = Some v →
      reconcile m keys = v) ∧
  (Forall (λ k, m !! k = None) keys → reconcile m keys = VNone) ∧
  (∀ v_new v_old,
      keys = ["new_key"; "old_key"] →
      m !! "new_key" = Some v_new → m !! "old_key" = Some v_old →
      reconcile m keys = v_new).
Proof.
  split; [|split].
  - intros pre k post v -> Hpre Hk. by apply reconcile_first.
  - intros Hnone. unfold reconcile. by rewrite first_key_none.
  - intros v_new v_old -> Hnew _. by apply (reconcile_first m [] "new_key" ["old_key"]).
Qed.

Lemma reconcile_first_present_witness :
  reconcile both_keys_record ["new_key"; "old_key"] = VInt 2
  ∧ reconcile edge_record ["a"; "b"; "c"] = VStr "45.0C"
  ∧ reconcile edge_record ["x"; "y"] = VNone.
Proof.
  split; [|split].
  - apply (reconcile_first_present both_keys_record ["new_key"; "old_key"])
      with (v_old := VInt 1); vm_compute; reflexivity.
  - apply (proj1 (reconcile_first_present edge_record ["a"; "b"; "c"]) ["a"] "b" ["c"]);
      [reflexivity| |vm_compute; reflexivity].
    repeat constructor.
  - apply (reconcile_first_present edge_record ["x"; "y"]).
    repeat constructor.
Defined.

(** ** The number pattern *)

Module TextFacts.
Import Text.

Lemma span_digits_all d :
  all_digits d = true → span_digits d = (d, "").
Proof.
  induction d as [|a d IH]; simpl; [done|].
  intros [Ha Hd]%andb_true_iff. by rewrite Ha, IH.
Qed.

Lemma span_digits_spec s d r :
  span_digits s = (d, r) → all_digits d = true ∧ s = d +:+ r.
Proof.
  revert d r. induction s as [|a s IH]; simpl; intros d r.
  - by intros [= <- <-].
  - destruct (is_digit a) eqn:Ha.
    + destruct (span_digits s) as [d' r'] eqn:Hs. intros [= <- <-].
      destruct (IH _ _ eq_refl) as [Hd ->]. simpl. by rewrite Ha, Hd.
    + by intros [= <- <-].
Qed.

Lemma span_digits_app d a r :
  all_digits d = true → is_digit a = false →
  span_digits (d +:+ String a r) = (d, String a r).
Proof.
  intros Hd Ha. induction d as [|b d IH]; simpl.
  - by rewrite Ha.
  - simpl in Hd. apply andb_true_iff in Hd as [Hb Hd]. by rewrite Hb, IH.
Qed.

Lemma all_digits_app d1 d2 :
  all_digits d1 = true → all_digits d2 = true → all_digits (d1 +:+ d2) = true.
Proof.
  intros H1 H2. induction d1 as [|a d IH]; simpl; [done|].
  simpl in H1. apply andb_true_iff in H1 as [Ha Hd]. by rewrite Ha, IH.
Qed.

Lemma read_digits_all d acc :
  all_digits d = true → ∃ n, read_digits acc d = Some n.
Proof.
  revert acc. induction d as [|a d IH]; simpl; intros acc; [by eexists|].
  intros [Ha Hd]%andb_true_iff. rewrite Ha. by apply IH.
Qed.

Lemma has_digit_span s :
  has_digit s = false → span_digits s = ("", s).
Proof. destruct s as [|a s]; simpl; [done|]. by intros [-> _]%orb_false_iff. Qed.

Lemma match_unsigned_no_digit s : has_digit s = false → match_unsigned s = None.
Proof. intros Hs. unfold match_unsigned. by rewrite has_digit_span. Qed.

(** A text without a digit has no match of the pattern. *)
Lemma search_no_digit s : has_digit s = false → rx_number_search s = None.
Proof.
  induction s as [|a s IH]; [done|].
  intros Hs. pose proof Hs as [Ha Hs']%orb_false_iff.
  cbn [rx_number_search rx_number_match].
  rewrite (match_unsigned_no_digit s Hs'), (match_unsigned_no_digit _ Hs).
  destruct (is_sign a); simpl; by apply IH.
Qed.

(** What the unsigned part of the pattern matches is a numeral [float]
    accepts, and it starts with a digit. *)
Lemma match_unsigned_parses s t neg :
  match_unsigned s = Some t →
  (∃ x, float_of_unsigned neg t = Ok x) ∧
  (∃ a t', t = String a t' ∧ is_digit a = true).
Proof.
  unfold match_unsigned.
  destruct (span_digits s) as [ip r] eqn:Hs.
  apply span_digits_spec in Hs as [Hip _].
  destruct ip as [|a ip]; [done|].
  assert (Ha : is_digit a = true) by (simpl in Hip; by apply andb_true_iff in Hip as [? _]).
  assert (Hwhole : ∃ x, float_of_unsigned neg (String a ip) = Ok x).
  { unfold float_of_unsigned. rewrite span_digits_all by done.
    destruct (read_digits_all (String a ip) 0 Hip) as [n Hn].
    rewrite Hn. by eexists. }
  assert (Hpoint : ∀ b fp,
    all_digits (String b fp) = true →
    ∃ x, float_of_unsigned neg (String a ip +:+ String "." (String b fp)) = Ok x).
  { intros b fp Hfp. unfold float_of_unsigned.
    rewrite span_digits_app by done.
    destruct (read_digits_all (String a ip +:+ String b fp) 0) as [n Hn].
    { by apply all_digits_app. }
    rewrite Hn. by eexists. }
  destruct r as [|c r]; [intros [= <-]; eauto|].
  destruct (Ascii.eqb_spec c ".") as [->|Hc].
  - destruct (span_digits r) as [fp r'] eqn:Hr.
    apply span_digits_spec in Hr as [Hfp _].
    destruct fp as [|b fp]; intros [= <-]; [eauto|].
    split; [by apply Hpoint | simpl; eauto].
  - intros Ht. assert (t = String a ip) as ->; [|eauto].
    revert Ht. destruct c as [[] [] [] [] [] [] [] []]; congruence.
Qed.

Lemma match_parses s t :
  rx_number_match s = Some t → ∃ x, float_of_numeral t = Ok x.
Proof.
  destruct s as [|a s]; [done|]. cbn [rx_number_match].
  destruct (is_sign a) eqn:Hsign.
  - destruct (match_unsigned s) as [u|] eqn:Hu; [|done]. intros [= <-].
    unfold float_of_numeral. unfold is_sign in Hsign.
    destruct (code a =? 45)%N eqn:H45.
    + by apply (match_unsigned_parses s u true).
    + rewrite orb_false_r in Hsign. rewrite Hsign.
      by apply (match_unsigned_parses s u false).
  - intros Hu.
    destruct (match_unsigned_parses _ _ false Hu) as [Hx (b & t' & -> & Hb)].
    unfold float_of_numeral.
    assert ((code b =? 45)%N = false ∧ (code b =? 43)%N = false) as [-> ->]; [|done].
    unfold is_digit in Hb. apply andb_true_iff in Hb as [H1%N.leb_le H2].
    split; apply N.eqb_neq; lia.
Qed.

(** [float(m.group(0))] never raises. *)
Lemma search_parses s t :
  rx_number_search s = Some t → ∃ x, float_of_numeral t = Ok x.
Proof.
  induction s as [|a s IH]; [done|]. cbn [rx_number_search].
  destruct (rx_number_match (String a s)) as [u|] eqn:Hu.
  - intros [= <-]. by eapply match_parses.
  - done.
Qed.

End TextFacts.

(** ** The normaliser *)

Lemma of_int_bool (b : bool) : ∃ x, Float.of_int (if b then 1%Z else 0%Z) = Ok x.
Proof. destruct b; by eexists. Qed.

Lemma to_float_text_no_digit s scale :
  has_digit s = false → _to_float (VStr s) scale = Ok None.
Proof.
  intros Hs. unfold _to_float. destruct (_is_na (VStr s)); [done|]. simpl.
  by rewrite TextFacts.search_no_digit.
Qed.

Lemma to_float_text_total s scale : ∃ r, _to_float (VStr s) scale = Ok r.
Proof.
  unfold _to_float. destruct (_is_na (VStr s)); [by eexists|]. simpl.
  destruct (Text.rx_number_search s) as [t|] eqn:Ht; [|by eexists].
  destruct (TextFacts.search_parses s t Ht) as [x ->]. by eexists.
Qed.

(** The edge of the binary64 range, where [float(int)] starts to raise. *)
Example of_int_largest :
  Float.of_int (2 ^ 1024 - 2 ^ 970 - 1) = Ok (S754_finite false 9007199254740991 971)
  ∧ Float.of_int (2 ^ 1024 - 2 ^ 970) = Raise OverflowError.
Proof. split; vm_compute; reflexivity. Qed.

(** A numeral beyond the range is parsed as infinity, silently. *)
Example to_float_text_overflow :
  _to_float (VStr (String.concat EmptyString (repeat "9" 400) +:+ " W")) Float.one
    = Ok (Some (S754_infinity false)).
Proof. vm_compute. reflexivity. Qed.

(** C7, as stated, fails: an integer beyond the binary64 range makes
    [float(v)] raise, and an infinite input is returned as it is. *)
Lemma to_float_not_total :
  ¬ normalizer_total_at (VInt (10 ^ 400)) Float.one
  ∧ ¬ normalizer_total_at (VFloat (S754_infinity false)) Float.one.
Proof.
  split.
  - intros (r & Hr & _). vm_compute in Hr. discriminate.
  - intros (r & Hr & Hfin). vm_compute in Hr. injection Hr as <-.
    destruct Hfin as [?|(x & [= <-] & ?)]; discriminate.
Qed.

(** C7, amended. The normaliser is a total function of its arguments. It
    raises for one kind of input only, an integer too large for a double
    ([OverflowError]); for an absent value, a boolean, a float and any
    text it returns a float or "no value"; text without a digit yields
    "no value". *)
Theorem to_float_total (v : pyval) (scale : Float.float) :
  ((∃ r, _to_float v scale = Ok r) ∨
   (_to_float v scale = Raise OverflowError ∧
    ∃ n, v = VInt n ∧ Float.of_int n = Raise OverflowError)) ∧
  ((∀ n, v ≠ VInt n) → ∃ r, _to_float v scale = Ok r) ∧
  (∀ s, v = VStr s → has_digit s = false → _to_float v scale = Ok None).
Proof.
  split; [|split].
  - destruct v as [|b|n|x|s].
    + left. by eexists.
    + left. unfold _to_float. simpl. destruct (of_int_bool b) as [x ->]. by eexists.
    + unfold _to_float. simpl. unfold Float.of_int.
      destruct (Float.is_finite _) eqn:Hfin.
      * left. by eexists.
      * right. split; [done|]. exists n. split; [done|].
        unfold Float.of_int. by rewrite Hfin.
    + left. by eexists.
    + left. apply to_float_text_total.
  - intros Hv. destruct v as [|b|n|x|s]; [by eexists| |by destruct (Hv n)|by eexists|].
    + unfold _to_float. simpl. destruct (of_int_bool b) as [x ->]. by eexists.
    + apply to_float_text_total.
  - intros s -> Hs. by apply to_float_text_no_digit.
Qed.

Lemma to_float_total_witness :
  (∃ r, _to_float (VStr "n/a (no sensor)") Float.one = Ok r)
  ∧ _to_float (VStr "unsupported") Float.one = Ok None.
Proof.
  split.
  - apply (to_float_total (VStr "n/a (no sensor)") Float.one). intros n. discriminate.
  - apply (to_float_total (VStr "unsupported") Float.one) with (s := "unsupported");
      reflexivity.
Defined.

(** ** Acquisition and start-up failures *)

Lemma for_each_app {A} (l1 l2 : list A) (body : A → M unit) st :
  for_each (l1 ++ l2) body st =
  match for_each l1 body st with
  | (Ok _, st') => for_each l2 body st'
  | (Raise e, st') => (Raise e, st')
  end.
Proof.
  revert st. induction l1 as [|a l1 IH]; intros st; simpl; [done|].
  unfold mbind, M_bind. destruct (body a st) as [[[]|e] st']; [apply IH|done].
Qed.

(** [main] without its notation: the start-up, then the loop. *)
Lemma main_eq repr version_run runs st :
  main repr version_run runs st =
  match _get_versions version_run (emit INFO StartedServer st) with
  | (Ok (rsmi_ver, rlib_ver), st1) => poll_loop repr rsmi_ver rlib_ver runs st1
  | (Raise e, st1) => (Raise e, st1)
  end.
Proof.
  unfold main, mbind, M_bind, logger_log, modify.
  by destruct (_get_versions version_run _) as [[[v1 v2]|e] st1].
Qed.

Lemma poll_cycle_fails float_repr v1 v2 r st :
  acquisition_fails r →
  ∃ e, poll_cycle float_repr v1 v2 r st = (Raise e, st).
Proof. intros [-> | ->]; by eexists. Qed.

(** C5. When the status command exits non-zero or prints something that
    is not JSON, the cycle raises before anything is published: the state
    (registry and log) is the one the previous cycles left. The exception
    ends the loop, whatever runs would have followed, and with the loop
    the process: [main] returns it. *)
Theorem failed_acquisition_is_fatal
    (float_repr : Float.float → string) (rsmi_ver rlib_ver : string)
    (before after : list (run payload)) (r : run payload) (st st1 : state) :
  acquisition_fails r →
  poll_loop float_repr rsmi_ver rlib_ver before st = (Ok tt, st1) →
  ∃ e, poll_cycle float_repr rsmi_ver rlib_ver r st1 = (Raise e, st1) ∧
       poll_loop float_repr rsmi_ver rlib_ver (before ++ r :: after) st
         = (Raise e, st1) ∧
       ∀ version_run st0,
         _get_versions version_run (emit INFO StartedServer st0)
           = (Ok (rsmi_ver, rlib_ver), st) →
         main float_repr version_run (before ++ r :: after) st0 = (Raise e, st1).
Proof.
  intros Hr Hbefore.
  destruct (poll_cycle_fails float_repr rsmi_ver rlib_ver r st1 Hr) as [e He].
  assert (Hloop : poll_loop float_repr rsmi_ver rlib_ver (before ++ r :: after) st
                  = (Raise e, st1)).
  { unfold poll_loop in *. rewrite for_each_app, Hbefore. simpl.
    unfold mbind, M_bind. by rewrite He. }
  exists e. split; [done|]. split; [done|].
  intros version_run st0 Hstart. by rewrite main_eq, Hstart.
Qed.

Lemma failed_acquisition_is_fatal_witness :
  ∃ e,
    poll_cycle sample_repr EmptyString EmptyString (Completed NotJSON) after_one_cycle
      = (Raise e, after_one_cycle) ∧
    poll_loop sample_repr EmptyString EmptyString
      (one_cycle ++ Completed NotJSON :: one_cycle) empty_state
      = (Raise e, after_one_cycle).
Proof.
  destruct (failed_acquisition_is_fatal sample_repr EmptyString EmptyString
              one_cycle one_cycle (Completed NotJSON) empty_state after_one_cycle)
    as (e & Hcycle & Hloop & _).
  - right. reflexivity.
  - vm_compute. reflexivity.
  - exists e. split; [exact Hcycle | exact Hloop].
Defined.

(** C6, as stated, fails: when the version command cannot be started the
    exception is not the one [_get_versions] handles, and it ends the
    process at start-up. *)
Lemma get_versions_not_started_is_fatal :
  _get_versions NotStarted empty_state = (Raise OSError, empty_state)
  ∧ (main sample_repr NotStarted one_cycle empty_state).1 = Raise OSError.
Proof. split; reflexivity. Qed.

(** C6, amended. When the version command runs and exits non-zero, or
    completes with output in which a pattern finds nothing,
    [_get_versions] returns normally and [main] goes on to the poll loop.
    A non-zero exit is logged as one warning and both strings are empty;
    output that does not match is not logged, and each string whose
    pattern finds nothing is empty. The registry is not touched. *)
Theorem get_versions_nonfatal (r : run string) (st : state) :
  r ≠ NotStarted →
  ∃ rsmi_ver rlib_ver st',
    _get_versions r st = (Ok (rsmi_ver, rlib_ver), st') ∧
    samples st' = samples st ∧
    (r = NonZeroExit →
       rsmi_ver = "" ∧ rlib_ver = "" ∧
       records st' = (records st ++ [(WARNING, VersionQueryFailed)])%list) ∧
    (∀ out, r = Completed out →
       records st' = records st ∧
       (Version.search "ROCM-SMI version:" out = None → rsmi_ver = "") ∧
       (Version.search "ROCM-SMI-LIB version:" out = None → rlib_ver = "")) ∧
    (∀ repr runs st0,
       st = emit INFO StartedServer st0 →
       main repr r runs st0 = poll_loop repr rsmi_ver rlib_ver runs st').
Proof.
  intros Hr. destruct r as [out| |]; [| |done].
  - eexists _, _, _. split; [reflexivity|]. split; [done|]. split; [done|].
    split.
    + intros ? [= <-]. split; [done|]. split; by intros ->.
    + intros repr runs st0 ->. by rewrite main_eq.
  - eexists _, _, _. split; [reflexivity|]. split; [done|]. split; [done|].
    split; [intros ? [=]|].
    intros repr runs st0 ->. by rewrite main_eq.
Qed.

Lemma get_versions_nonfatal_witness :
  ∃ rsmi_ver rlib_ver st',
    _get_versions (Completed version_output) empty_state
      = (Ok (rsmi_ver, rlib_ver), st') ∧
    rsmi_ver = "2.3.1" ∧ rlib_ver = EmptyString.
Proof.
  destruct (get_versions_nonfatal (Completed version_output) empty_state)
    as (v1 & v2 & st' & H & _); [discriminate|].
  exists v1, v2, st'. split; [exact H|].
  vm_compute in H. injection H as <- <- <-. split; reflexivity.
Defined.

(** ** Frame and update rules for the registry *)

Section Registry.

Variable repr : Float.float → string.


Lemma preserves_ret {A} k (a : A) : preserves k (mret a).
Proof. by intros st. Qed.

Lemma preserves_lift {A} k (r : result A) : preserves k (lift r).
Proof. by intros st. Qed.

Lemma preserves_log k l msg : preserves k (logger_log l msg).
Proof. intros st. unfold logger_log, modify, emit. by destruct (enabled l). Qed.

Lemma preserves_bind {A B} k (c : M A) (f : A → M B) :
  preserves k c → (∀ a, preserves k (f a)) → preserves k (c ≫= f).
Proof.
  intros Hc Hf st. unfold mbind, M_bind. specialize (Hc st).
  destruct (c st) as [[a|e] st1]; [|done].
  simpl in Hc. by rewrite Hf.
Qed.

Lemma preserves_for_each {A} k (l : list A) (body : A → M unit) :
  Forall (λ a, preserves k (body a)) l → preserves k (for_each l body).
Proof.
  induction 1; simpl; [apply preserves_ret|].
  apply preserves_bind; [done|]. by intros _.
Qed.

Lemma labels_set_eq g kw x st :
  labels_set repr g kw x st =
  match Gauge_labels repr g kw with
  | Ok lv => (Ok tt, set_sample (g, lv) x st)
  | Raise e => (Raise e, st)
  end.
Proof. unfold labels_set, mbind, M_bind, lift. by destruct (Gauge_labels repr g kw). Qed.

Lemma preserves_labels_set g kw x k :
  (∀ lv, Gauge_labels repr g kw = Ok lv → (g, lv) ≠ k) →
  preserves k (labels_set repr g kw x).
Proof.
  intros Hne st. rewrite labels_set_eq.
  destruct (Gauge_labels repr g kw) as [lv|e] eqn:Hlv; [|done].
  simpl. apply lookup_insert_ne. by apply Hne.
Qed.

Lemma preserves_set_if_not_none g kw value k :
  (∀ lv, Gauge_labels repr g kw = Ok lv → (g, lv) ≠ k) →
  preserves k (_set_if_not_none repr g kw value).
Proof.
  intros Hne. destruct value as [x|]; [|apply preserves_ret].
  intros st. unfold _set_if_not_none, try_except.
  pose proof (preserves_labels_set g kw x k Hne st) as H.
  by destruct (labels_set repr g kw x st) as [[[]|e] st1].
Qed.

Lemma preserves_set_from_other g kw v k :
  g ≠ k.1 → preserves k (set_from repr g kw v).
Proof.
  intros Hg. apply preserves_bind; [apply preserves_lift|]. intros value.
  apply preserves_set_if_not_none. by intros lv _ <-.
Qed.

Lemma preserves_set_from_none g kw v k :
  (∀ x, _to_float v Float.one ≠ Ok (Some x)) → preserves k (set_from repr g kw v).
Proof.
  intros Hv st. unfold set_from, mbind, M_bind, lift.
  destruct (_to_float v Float.one) as [[x|]|e]; [by destruct (Hv x)|done..].
Qed.

Lemma preserves_set_sub_other g kw sub m entry k :
  g ≠ k.1 → preserves k (set_sub repr g kw sub m entry).
Proof.
  intros Hg. destruct entry as [key name].
  apply preserves_bind; [apply preserves_lift|]. intros [x|]; [|apply preserves_ret].
  apply preserves_labels_set. by intros lv _ <-.
Qed.

Lemma preserves_set_sub_none g kw sub m key name k :
  (∀ x, _to_float (get m key) Float.one ≠ Ok (Some x)) →
  preserves k (set_sub repr g kw sub m (key, name)).
Proof.
  intros Hv st. unfold set_sub, mbind, M_bind, lift.
  destruct (_to_float (get m key) Float.one) as [[x|]|e]; [by destruct (Hv x)|done..].
Qed.

(** The label values computed for a device. *)
Lemma Gauge_labels_identity g m :
  labelnames g = identity_names →
  Gauge_labels repr g (labels m) = Ok (identity repr m).
Proof. intros Hg. unfold Gauge_labels. rewrite Hg. reflexivity. Qed.

Lemma Gauge_labels_sub g m sub name :
  labelnames g = (identity_names ++ [sub])%list →
  Gauge_labels repr g (labels m ++ [(sub, VStr name)])
    = Ok (identity repr m ++ [name])%list.
Proof.
  intros Hg. unfold Gauge_labels. rewrite Hg.
  destruct g; try discriminate Hg; injection Hg as <-; reflexivity.
Qed.

Lemma preserves_set_sub_name g m sub key name lv :
  labelnames g = (identity_names ++ [sub])%list →
  last lv ≠ Some name →
  preserves (g, lv) (set_sub repr g (labels m) sub m (key, name)).
Proof.
  intros Hg Hlast.
  apply preserves_bind; [apply preserves_lift|]. intros [x|]; [|apply preserves_ret].
  apply preserves_labels_set. intros lv'. rewrite Gauge_labels_sub by done.
  intros [= <-] [= <-]. by apply Hlast.
Qed.

Lemma sets_here k x (c rest : M unit) :
  sets k x c → preserves k rest → sets k x (c ;; rest).
Proof.
  intros Hc Hrest st st'. unfold mbind, M_bind.
  destruct (c st) as [[[]|e] st1] eqn:Hst; [|done].
  intros Hr. rewrite <- (Hc _ _ Hst). specialize (Hrest st1). by rewrite Hr in Hrest.
Qed.

Lemma sets_later k x (c rest : M unit) :
  sets k x rest → sets k x (c ;; rest).
Proof.
  intros Hrest st st'. unfold mbind, M_bind.
  destruct (c st) as [[[]|e] st1]; [|done]. apply Hrest.
Qed.

Lemma sets_labels_set g kw x lv :
  Gauge_labels repr g kw = Ok lv → sets (g, lv) x (labels_set repr g kw x).
Proof.
  intros Hlv st st'. rewrite labels_set_eq, Hlv. intros [= <-].
  apply lookup_insert_eq.
Qed.

Lemma sets_set_from g kw v lv x :
  Gauge_labels repr g kw = Ok lv → _to_float v Float.one = Ok (Some x) →
  sets (g, lv) x (set_from repr g kw v).
Proof.
  intros Hlv Hv st st'. unfold set_from, mbind, M_bind, lift.
  rewrite Hv. unfold _set_if_not_none, try_except. rewrite labels_set_eq, Hlv.
  intros [= <-]. apply lookup_insert_eq.
Qed.

Lemma sets_set_sub g m sub key name x :
  labelnames g = (identity_names ++ [sub])%list →
  _to_float (get m key) Float.one = Ok (Some x) →
  sets (g, (identity repr m ++ [name])%list) x (set_sub repr g (labels m) sub m (key, name)).
Proof.
  intros Hg Hv st st'. unfold set_sub, mbind, M_bind, lift.
  rewrite Hv. by apply sets_labels_set, Gauge_labels_sub.
Qed.

Lemma get_reconcile m k : get m k = reconcile m [k].
Proof.
  unfold get, reconcile, dict_get, dict_get_default. simpl.
  case_bool_decide as Hk; [done|].
  destruct (m !! k); [|done]. by destruct Hk.
Qed.

End Registry.

(** ** The device loop, block by block *)

Section DeviceBlocks.

Variable repr : Float.float → string.
Variable m : gmap string pyval.

Lemma preserves_device_info k :
  k.1 ≠ deviceInfo → preserves k (device_info repr m).
Proof. intros Hk. apply preserves_labels_set. by intros lv _ <-. Qed.

Lemma pcie_eq st :
  pcie repr m st =
  match _to_float (get m "pcie_link_width (Lanes)") Float.one with
  | Raise e => (Raise e, st)
  | Ok width =>
      let st1 :=
        match width with
        | Some w => set_sample (pcieWidthLanes, identity repr m) w st
        | None => st
        end in
      match speed_01 m with
      | Raise e => (Raise e, st1)
      | Ok None => (Ok tt, st1)
      | Ok (Some s) =>
          (Ok tt, set_sample (pcieSpeedGTs, identity repr m)
                    (Float.mul s Float.tenth) st1)
      end
  end.
Proof.
  unfold pcie, mbind, M_bind, lift.
  destruct (_to_float (get m "pcie_link_width (Lanes)") Float.one) as [[w|]|e];
    [| |done].
  - rewrite labels_set_eq, Gauge_labels_identity by done.
    destruct (speed_01 m) as [[s|]|e]; [|done..].
    by rewrite labels_set_eq, Gauge_labels_identity.
  - simpl. destruct (speed_01 m) as [[s|]|e]; [|done..].
    by rewrite labels_set_eq, Gauge_labels_identity.
Qed.

Lemma preserves_pcie_other k :
  k.1 ≠ pcieWidthLanes → k.1 ≠ pcieSpeedGTs → preserves k (pcie repr m).
Proof.
  intros Hw Hs st. rewrite pcie_eq.
  destruct (_to_float _ _) as [[w|]|e]; [| |done];
    destruct (speed_01 m) as [[s|]|e]; simpl;
    rewrite ?lookup_insert_ne; try done; by intros <-.
Qed.

Lemma preserves_pcie_width_none lv :
  (∀ x, _to_float (get m "pcie_link_width (Lanes)") Float.one ≠ Ok (Some x)) →
  preserves (pcieWidthLanes, lv) (pcie repr m).
Proof.
  intros Hnone st. rewrite pcie_eq.
  destruct (_to_float _ _) as [[w|]|e]; [by destruct (Hnone w)| |done].
  destruct (speed_01 m) as [[s|]|e]; simpl; rewrite ?lookup_insert_ne; done.
Qed.

Lemma preserves_pcie_speed_none lv :
  (∀ x, speed_01 m ≠ Ok (Some x)) →
  preserves (pcieSpeedGTs, lv) (pcie repr m).
Proof.
  intros Hnone st. rewrite pcie_eq.
  destruct (_to_float _ _) as [[w|]|e]; [| |done];
    (destruct (speed_01 m) as [[s|]|e]; [by destruct (Hnone s)|..]);
    simpl; rewrite ?lookup_insert_ne; done.
Qed.

Lemma sets_pcie_width x :
  _to_float (get m "pcie_link_width (Lanes)") Float.one = Ok (Some x) →
  sets (pcieWidthLanes, identity repr m) x (pcie repr m).
Proof.
  intros Hw st st'. rewrite pcie_eq, Hw.
  destruct (speed_01 m) as [[s|]|e]; intros [= <-]; simpl;
    rewrite ?lookup_insert_ne by done; apply lookup_insert_eq.
Qed.

Lemma sets_pcie_speed x :
  speed_01 m = Ok (Some x) →
  sets (pcieSpeedGTs, identity repr m) (Float.mul x Float.tenth) (pcie repr m).
Proof.
  intros Hs st st'. rewrite pcie_eq, Hs.
  destruct (_to_float _ _) as [[w|]|e]; intros [= <-]; apply lookup_insert_eq.
Qed.

End DeviceBlocks.

Ltac unfold_blocks :=
  unfold process_device, temperatures, usage, power, voltages, fan,
    clocks_current, clocks_average, energy;
  cbn beta zeta iota delta [for_each];
  repeat match goal with
  | |- context [dict_get ?m (_first_key ?m ?l)] =>
      change (dict_get m (_first_key m l)) with (reconcile m l)
  end;
  rewrite ?get_reconcile.

(** The hypothesis [H] speaks of the source [v], letter for letter. *)
Ltac about H v :=
  lazymatch type of H with
  | ∀ x, _to_float ?v' _ ≠ _ => constr_eq v v'
  | _to_float ?v' _ = _ => constr_eq v v'
  end.

(** A leaf of the device loop leaves the sample of the goal alone: it
    writes another gauge, or another rail or clock, or its own source is
    not a number ([Hr], [Hg]: that hypothesis, spelled with [reconcile]
    and with [get]). *)
Ltac preserves_leaf Hr Hg Hsub :=
  lazymatch goal with
  | |- preserves _ (mret _) => apply preserves_ret
  | |- preserves _ (device_info _ _) => apply preserves_device_info; discriminate
  | |- preserves _ (set_from _ _ _ ?v) =>
      first [ apply preserves_set_from_other; discriminate
            | about Hr v; apply preserves_set_from_none; exact Hr ]
  | |- preserves _ (set_sub _ _ _ _ ?m (?key, _)) =>
      first [ apply preserves_set_sub_other; discriminate
            | about Hg (get m key); apply preserves_set_sub_none; exact Hg
            | apply preserves_set_sub_name;
                [reflexivity | first [rewrite Hsub; discriminate | cbn; discriminate]] ]
  | |- preserves (?g, _) (pcie _ _) =>
      lazymatch g with
      | pcieWidthLanes => apply preserves_pcie_width_none; exact Hg
      | pcieSpeedGTs => apply preserves_pcie_speed_none; exact Hg
      | _ => apply preserves_pcie_other; discriminate
      end
  end.

Ltac solve_preserves Hr Hg Hsub :=
  repeat first
  [ preserves_leaf Hr Hg Hsub
  | apply preserves_bind; [|intros _] ].

Ltac sets_leaf Hr Hg :=
  lazymatch goal with
  | |- sets _ _ (set_from _ _ _ ?v) =>
      about Hr v; apply sets_set_from; [by apply Gauge_labels_identity | exact Hr]
  | |- sets _ _ (set_sub _ _ _ _ ?m (?key, _)) =>
      about Hg (get m key); apply sets_set_sub; [reflexivity | exact Hg]
  | |- sets (pcieWidthLanes, _) _ (pcie _ _) => apply sets_pcie_width; exact Hg
  | |- sets (pcieSpeedGTs, _) _ (pcie _ _) => apply sets_pcie_speed; exact Hg
  end.

(** Membership in the catalogue, by position. *)
Ltac in_catalogue :=
  unfold logical_metrics;
  repeat first [apply list_elem_of_here | apply list_elem_of_further].

Lemma pcie_speed_metric_listed : pcie_speed_metric ∈ logical_metrics.
Proof. unfold pcie_speed_metric. in_catalogue. Qed.

Lemma vram_metric_listed : vram_metric ∈ logical_metrics.
Proof. unfold vram_metric. in_catalogue. Qed.

Ltac solve_sets Hr Hg :=
  first
  [ sets_leaf Hr Hg
  | apply sets_here;
      [ solve_sets Hr Hg
      | solve [solve_preserves (I : True) (I : True) (I : True)] ]
  | apply sets_later; solve_sets Hr Hg ].

Section DeviceLoop.

Variable repr : Float.float → string.
Variable m : gmap string pyval.

(** Processing a record does not touch the sample of a logical metric
    whose source is not normalised to a number. *)
Lemma process_device_frame lm lv :
  lm ∈ logical_metrics →
  (∀ x, lm_normalized m lm ≠ Ok (Some x)) →
  sub_matches lm lv →
  preserves (lm_gauge lm, lv) (process_device repr m).
Proof.
  intros Hin Hr Hsub. unfold logical_metrics in Hin.
  repeat (apply elem_of_cons in Hin as [-> | Hin]);
    [..|by apply elem_of_nil in Hin];
    unfold lm_normalized, lm_source, sub_matches in *;
    cbn [lm_gauge lm_sub lm_candidates] in *;
    pose proof Hr as Hg; rewrite <- ?get_reconcile in Hg;
    unfold_blocks; solve_preserves Hr Hg Hsub.
Qed.

(** When processing a record completes, the sample of a logical metric
    whose source is normalised to a number holds that number, times 0.1
    for the PCIe link speed. *)
Lemma process_device_sets lm x :
  lm ∈ logical_metrics →
  lm_normalized m lm = Ok (Some x) →
  sets (lm_key repr m lm) (lm_at_publish lm x) (process_device repr m).
Proof.
  intros Hin Hr. unfold logical_metrics in Hin.
  repeat (apply elem_of_cons in Hin as [-> | Hin]);
    [..|by apply elem_of_nil in Hin];
    unfold lm_normalized, lm_source, lm_key, lm_at_publish in *;
    cbn [lm_gauge lm_sub lm_candidates] in *; rewrite ?app_nil_r;
    pose proof Hr as Hg; rewrite <- ?get_reconcile in Hg;
    cbn [decide decide_rel]; unfold_blocks; solve_sets Hr Hg.
Qed.

End DeviceLoop.

(** ** One device, one cycle *)

Lemma poll_cycle_single repr rsmi_ver rlib_ver card m st :
  card ≠ "system" →
  poll_cycle repr rsmi_ver rlib_ver (Completed (Json [(card, m)])) st =
  match process_device repr m (emit INFO RetrievedMetrics st) with
  | (Ok _, st1) => (Ok tt, emit INFO RefreshedMetrics st1)
  | (Raise e, st1) => (Raise e, st1)
  end.
Proof.
  intros Hcard%String.eqb_neq.
  unfold poll_cycle, getGPUMetrics, mbind, M_bind, lift, logger_log, modify.
  cbn [check_output json_loads].
  unfold process_snapshot, software_info, mbind, M_bind, mret, M_ret.
  cbn [item for_each]. rewrite Hcard. unfold mbind, M_bind, mret, M_ret.
  by destruct (process_device repr m _) as [[[]|e] st1].
Qed.

Lemma samples_emit l msg st : samples (emit l msg st) = samples st.
Proof. unfold emit. by destruct (enabled l). Qed.

Lemma usage_record_processed repr st :
  process_device repr usage_record st =
  (Ok tt,
   set_sample (gpuUsage, ["X"; "unknown"; "unknown"]) f37_5
     (set_sample (deviceInfo, ["X"; "unknown"; "unknown"; ""; ""; ""; ""])
        Float.one st)).
Proof. reflexivity. Qed.

(** C1. For every device record and every logical metric whose reconciled
    source value is structurally absent or the sentinel "N/A":
    normalisation yields "no value", [_set_if_not_none] returns without
    touching the registry, and processing the record leaves the sample of
    that metric as it was, absent or present: under the device's label
    set, and under any other label set of the metric. *)
Theorem absent_source_publishes_nothing
    (repr : Float.float → string) (m : gmap string pyval)
    (lm : logical_metric) (st : state) :
  lm ∈ logical_metrics →
  absent_or_sentinel (lm_source m lm) →
  lm_normalized m lm = Ok None ∧
  _set_if_not_none repr (lm_gauge lm) (labels m) None st = (Ok tt, st) ∧
  samples (process_device repr m st).2 !! lm_key repr m lm
    = samples st !! lm_key repr m lm ∧
  ∀ lv, sub_matches lm lv →
    samples (process_device repr m st).2 !! (lm_gauge lm, lv)
      = samples st !! (lm_gauge lm, lv).
Proof.
  intros Hin Hna%is_na_absent_or_sentinel.
  assert (Hnone : lm_normalized m lm = Ok None).
  { unfold lm_normalized, _to_float. by rewrite Hna. }
  assert (Hframe : ∀ lv, sub_matches lm lv →
            samples (process_device repr m st).2 !! (lm_gauge lm, lv)
              = samples st !! (lm_gauge lm, lv)).
  { intros lv Hlv. apply (process_device_frame repr m lm lv Hin); [|done].
    intros x. by rewrite Hnone. }
  split; [done|]. split; [done|]. split; [|done].
  apply Hframe. unfold sub_matches.
  destruct (lm_sub lm) as [|name [|? ?]] eqn:Hsub; [done|done|].
  exfalso. clear -Hin Hsub. unfold logical_metrics in Hin.
  repeat (apply elem_of_cons in Hin as [-> | Hin]); try discriminate.
  by apply elem_of_nil in Hin.
Qed.

Lemma absent_source_publishes_nothing_witness :
  samples (process_device sample_repr usage_record empty_state).2
    !! lm_key sample_repr usage_record vram_metric
  = samples empty_state !! lm_key sample_repr usage_record vram_metric.
Proof.
  destruct (absent_source_publishes_nothing sample_repr usage_record vram_metric
              empty_state) as (_ & _ & Hkept & _).
  - exact vram_metric_listed.
  - left. vm_compute. reflexivity.
  - exact Hkept.
Defined.

(** C8. With the one device record, device name "X" and GPU use "37.5%",
    the cycle completes; the identity labels are "X", "unknown",
    "unknown"; the usage gauge holds 37.5 under them; no sample of the
    VRAM gauge is written. The registry after the cycle is the one before
    it with two samples set, the device-info marker and the usage, both
    under that identity. *)
Theorem usage_example
    (repr : Float.float → string) (rsmi_ver rlib_ver card : string) (st : state) :
  card ≠ "system" →
  ∃ st',
    poll_cycle repr rsmi_ver rlib_ver (Completed (Json [(card, usage_record)])) st
      = (Ok tt, st') ∧
    identity repr usage_record = ["X"; "unknown"; "unknown"] ∧
    samples st' !! (gpuUsage, ["X"; "unknown"; "unknown"]) = Some f37_5 ∧
    (∀ lv, samples st' !! (gpuVRAMUsage, lv) = samples st !! (gpuVRAMUsage, lv)) ∧
    samples st' =
      <[(gpuUsage, ["X"; "unknown"; "unknown"]) := f37_5]>
        (<[(deviceInfo, ["X"; "unknown"; "unknown"; ""; ""; ""; ""]) := Float.one]>
           (samples st)).
Proof.
  intros Hcard. eexists. split.
  { rewrite poll_cycle_single by done. rewrite usage_record_processed. reflexivity. }
  rewrite samples_emit. cbn [set_sample samples]. rewrite samples_emit.
  split; [reflexivity|]. split; [apply lookup_insert_eq|]. split; [|reflexivity].
  intros lv. by rewrite !lookup_insert_ne.
Qed.

Lemma usage_example_witness :
  ∃ st',
    poll_cycle sample_repr EmptyString EmptyString
      (Completed (Json [("card0", usage_record)])) empty_state = (Ok tt, st') ∧
    samples st' !! (gpuUsage, device_X) = Some f37_5 ∧
    samples st' !! (gpuVRAMUsage, device_X) = None.
Proof.
  destruct (usage_example sample_repr EmptyString EmptyString "card0" empty_state)
    as (st' & Hrun & _ & Husage & Hvram & _); [discriminate|].
  exists st'. split; [exact Hrun|]. split; [exact Husage|].
  rewrite Hvram. reflexivity.
Defined.



(** C4, as stated, fails for the PCIe link speed: the normaliser, called
    with its default scale, returns 160.0 for the raw 160, and the sample
    holds 16.0; the factor 0.1 is applied after normalisation, in the
    argument of [set]. *)
Lemma pcie_speed_converted_at_publish :
  ¬ publishes_normalized sample_repr pcie_record pcie_speed_metric.
Proof.
  intros H.
  specialize (H f160 empty_state (process_device sample_repr pcie_record empty_state).2).
  assert (Hread : samples (process_device sample_repr pcie_record empty_state).2
                    !! lm_key sample_repr pcie_record pcie_speed_metric = Some f16)
    by (vm_compute; reflexivity).
  rewrite H in Hread; [discriminate|reflexivity|vm_compute; reflexivity].
Qed.

(** C4, amended. Every logical metric is normalised with the default scale
    1.0. When the record is processed to the end and the normaliser
    returned a number, the sample holds that number unchanged for every
    metric but the PCIe link speed; for the link speed it holds the number
    times 0.1, the one conversion of the loop, applied once, between
    normalisation and [set]. *)
Theorem conversion_at_publish
    (repr : Float.float → string) (m : gmap string pyval)
    (lm : logical_metric) (x : Float.float) (st st' : state) :
  lm ∈ logical_metrics →
  _to_float (lm_source m lm) Float.one = Ok (Some x) →
  process_device repr m st = (Ok tt, st') →
  samples st' !! lm_key repr m lm = Some (lm_at_publish lm x) ∧
  (lm_gauge lm ≠ pcieSpeedGTs → lm_at_publish lm x = x) ∧
  (lm_gauge lm = pcieSpeedGTs → lm_at_publish lm x = Float.mul x Float.tenth).
Proof.
  intros Hin Hx Hrun. split; [|split].
  - by apply (process_device_sets repr m lm x Hin Hx st st').
  - intros Hg. unfold lm_at_publish. by rewrite decide_False.
  - intros Hg. unfold lm_at_publish. by rewrite decide_True.
Qed.

Lemma conversion_at_publish_witness :
  samples (process_device sample_repr pcie_record empty_state).2
    !! lm_key sample_repr pcie_record pcie_speed_metric
  = Some (lm_at_publish pcie_speed_metric f160).
Proof.
  destruct (conversion_at_publish sample_repr pcie_record pcie_speed_metric f160
              empty_state (process_device sample_repr pcie_record empty_state).2)
    as (Hsample & _).
  - exact pcie_speed_metric_listed.
  - vm_compute. reflexivity.
  - vm_compute. reflexivity.
  - exact Hsample.
Defined.

(** C10, as stated, fails in its last clause: a number under
    "GFX Version" is truthy, so it is taken, and the label is its [str],
    though it is no string. *)
Lemma gfx_version_number_wins :
  first_gfx_wins numeric_gfx_record (VInt 9)
  ∧ py_str sample_repr (gfx_version numeric_gfx_record) = "9"
  ∧ ¬ ∃ s, VInt 9 = VStr s ∧ s ≠ "".
Proof.
  split; [|split].
  - unfold first_gfx_wins. split; [reflexivity|]. split; [reflexivity|].
    vm_compute. discriminate.
  - reflexivity.
  - intros (s & Hs & _). discriminate.
Qed.

(** C10, amended. The label is chosen by the truth value of what
    "GFX Version" maps to, not by the presence of the key: a falsy value
    (the empty string, zero, false, null) gives way to "GFX version"; a
    truthy one (a non-empty string, but also a non-zero number or true)
    is taken. Among strings, exactly the non-empty ones are taken. The
    device-info sample carries the [str] of the chosen value as its fifth
    label. *)
Theorem gfx_label_by_truthiness
    (repr : Float.float → string) (m : gmap string pyval) (v : pyval) (st : state) :
  m !! "GFX Version" = Some v →
  (truthy v = false → gfx_version m = dict_get_default m "GFX version" (VStr "")) ∧
  (truthy v = true → gfx_version m = v) ∧
  (∀ s, v = VStr s → (truthy v = true ↔ s ≠ "")) ∧
  ∃ lv, device_info repr m st = (Ok tt, set_sample (deviceInfo, lv) Float.one st) ∧
        lv !! 4%nat = Some (py_str repr (gfx_version m)).
Proof.
  intros Hv.
  assert (Hfirst : dict_get_default m "GFX Version" (VStr "") = v).
  { unfold dict_get_default. by rewrite Hv. }
  split; [|split; [|split]].
  - intros Hf. unfold gfx_version, py_or. by rewrite Hfirst, Hf.
  - intros Ht. unfold gfx_version, py_or. by rewrite Hfirst, Ht.
  - intros s ->. by destruct s.
  - eexists. split; [reflexivity|]. reflexivity.
Qed.

Lemma gfx_label_by_truthiness_witness :
  gfx_version empty_gfx_record
  = dict_get_default empty_gfx_record "GFX version" (VStr EmptyString).
Proof.
  destruct (gfx_label_by_truthiness sample_repr empty_gfx_record (VStr EmptyString)
              empty_state) as (Hfalsy & _).
  - vm_compute. reflexivity.
  - apply Hfalsy. reflexivity.
Defined.

(** * Further properties *)

(** ** What the normaliser reads in a text *)

Module NumberFacts.
Import Text.

Lemma match_unsigned_digit a s :
  is_digit a = true → ∃ t, match_unsigned (String a s) = Some t.
Proof.
  intros Ha. unfold match_unsigned. cbn [span_digits]. rewrite Ha.
  destruct (span_digits s) as [d r].
  destruct r as [|c r]; [by eexists|].
  destruct (Ascii.eqb_spec c ".") as [->|Hc].
  - destruct (span_digits r) as [[|b fp] r']; by eexists.
  - exists (String a d). destruct c as [[] [] [] [] [] [] [] []]; congruence.
Qed.

Lemma digit_not_sign a : is_digit a = true → is_sign a = false.
Proof.
  unfold is_digit, is_sign. intros [H1%N.leb_le H2%N.leb_le]%andb_true_iff.
  apply orb_false_iff. split; apply N.eqb_neq; lia.
Qed.

Lemma match_none_not_digit a s :
  rx_number_match (String a s) = None → is_digit a = false.
Proof.
  destruct (is_digit a) eqn:Ha; [|done]. cbn [rx_number_match].
  rewrite (digit_not_sign a Ha).
  destruct (match_unsigned_digit a s Ha) as [t ->]. discriminate.
Qed.

(** A text with a digit has a match. *)
Lemma search_has_digit s : has_digit s = true → ∃ t, rx_number_search s = Some t.
Proof.
  induction s as [|a s IH]; [done|]. intros Hs. cbn [rx_number_search].
  destruct (rx_number_match (String a s)) as [t|] eqn:Hm; [by eexists|].
  apply IH. simpl in Hs. by rewrite (match_none_not_digit a s Hm) in Hs.
Qed.

Lemma span_digits_rest s d r :
  span_digits s = (d, r) → starts_with_digit r = false.
Proof.
  revert d r. induction s as [|a s IH]; simpl; intros d r.
  - by intros [= <- <-].
  - destruct (is_digit a) eqn:Ha.
    + destruct (span_digits s) as [d' r'] eqn:Hs. intros [= <- <-]. by eapply IH.
    + intros [= <- <-]. done.
Qed.

Lemma append_nil (s : string) : s +:+ "" = s.
Proof. induction s as [|a s IH]; [done|]. by rewrite SentinelFacts.append_cons, IH. Qed.

(** What the unsigned part of the pattern matches is a prefix of the text,
    and no digit follows it. *)
Lemma match_unsigned_prefix s t :
  match_unsigned s = Some t →
  ∃ post, s = t +:+ post ∧ starts_with_digit post = false ∧ starts_with_digit t = true.
Proof.
  unfold match_unsigned. destruct (span_digits s) as [ip r] eqn:Hs.
  pose proof (span_digits_rest _ _ _ Hs) as Hr.
  apply TextFacts.span_digits_spec in Hs as [Hip ->].
  destruct ip as [|a ip]; [done|].
  assert (Ha : is_digit a = true) by (simpl in Hip; by apply andb_true_iff in Hip as [? _]).
  destruct r as [|c r]; [intros [= <-]; by exists ""|].
  destruct (Ascii.eqb_spec c ".") as [->|Hc].
  - destruct (span_digits r) as [fp r'] eqn:Hfp.
    pose proof (span_digits_rest _ _ _ Hfp) as Hr'.
    apply TextFacts.span_digits_spec in Hfp as [_ ->].
    destruct fp as [|b fp]; intros [= <-].
    + by exists (String "." r').
    + exists r'. split; [|done].
      rewrite SentinelFacts.app_assoc_string. rewrite (SentinelFacts.append_cons "." (String b fp) r'). done.
  - intros Ht. assert (t = String a ip) as ->.
    { revert Ht. destruct c as [[] [] [] [] [] [] [] []]; congruence. }
    by exists (String c r).
Qed.

Lemma has_digit_starts s : starts_with_digit s = true → has_digit s = true.
Proof. destruct s; [done|]. simpl. by intros ->. Qed.

Lemma has_digit_app s t : has_digit (s +:+ t) = has_digit s || has_digit t.
Proof.
  induction s as [|a s IH]; [done|]. rewrite SentinelFacts.append_cons. simpl.
  by rewrite IH, orb_assoc.
Qed.

End NumberFacts.

(** X2. The number the normaliser reads is the first one of the text: the
    match of the pattern is a piece of the text, no digit stands before
    it, no digit follows it, it holds a digit, and [float] accepts it. *)
Theorem search_is_first_number (s t : string) :
  Text.rx_number_search s = Some t →
  ∃ pre post,
    s = pre +:+ t +:+ post ∧
    has_digit pre = false ∧ starts_with_digit post = false ∧
    has_digit t = true ∧ ∃ x, Text.float_of_numeral t = Ok x.
Proof.
  intros Hs. pose proof (TextFacts.search_parses s t Hs) as Hx.
  revert Hs. induction s as [|a s IH]; [done|]. cbn [Text.rx_number_search].
  destruct (Text.rx_number_match (String a s)) as [u|] eqn:Hm.
  - intros [= ->]. exists "". cbn [Text.rx_number_match] in Hm.
    destruct (Text.is_sign a) eqn:Hsign.
    + destruct (Text.match_unsigned s) as [u|] eqn:Hu; [|done].
      injection Hm as <-.
      destruct (NumberFacts.match_unsigned_prefix s u Hu) as (post & -> & Hpost & Hd).
      exists post. repeat split; try done.
      simpl. rewrite (NumberFacts.has_digit_starts u Hd). apply orb_true_r.
    + destruct (NumberFacts.match_unsigned_prefix _ _ Hm) as (post & Heq & Hpost & Hd).
      exists post. repeat split; try done. by apply NumberFacts.has_digit_starts.
  - intros Hs. destruct (IH Hs) as (pre & post & -> & Hpre & Hpost & Ht & _).
    exists (String a pre), post. repeat split; try done.
    simpl. by rewrite (NumberFacts.match_none_not_digit a _ Hm).
Qed.

Lemma search_is_first_number_witness :
  ∃ pre post,
    "edge: -12.5C (max 90)" = pre +:+ "-12.5" +:+ post ∧
    has_digit pre = false ∧ starts_with_digit post = false.
Proof.
  destruct (search_is_first_number "edge: -12.5C (max 90)" "-12.5")
    as (pre & post & Heq & Hpre & Hpost & _); [vm_compute; reflexivity|].
  exists pre, post. repeat split; assumption.
Defined.

Lemma is_na_no_digit s : _is_na (VStr s) = true → has_digit s = false.
Proof.
  intros (pre & core & post & -> & Hpre & Hpost & Hcore)%SentinelFacts.matches_is_na.
  assert (Hsp : ∀ w, Sentinel.all_space w = true → has_digit w = false).
  { induction w as [|a w IH]; [done|]. simpl. intros [Ha Hw]%andb_true_iff.
    rewrite (IH Hw), orb_false_r. clear -Ha.
    unfold Text.is_space, Text.is_digit in *.
    destruct (48 <=? Text.code a)%N eqn:H1, (Text.code a <=? 57)%N eqn:H2; try done.
    apply N.leb_le in H1, H2. exfalso.
    apply orb_true_iff in Ha as [[_ H%N.leb_le]%andb_true_iff|[_ H%N.leb_le]%andb_true_iff]; lia. }
  rewrite !NumberFacts.has_digit_app, (Hsp _ Hpre), (Hsp _ Hpost).
  by destruct Hcore as [->|[->|[->| ->]]].
Qed.

(** X1. The normaliser answers "no value" in exactly two cases: the value
    is absent or the sentinel, or it is a text without a digit. Any other
    value gives a number (or, for an integer out of range, raises). *)
Theorem to_float_none_iff (v : pyval) (scale : Float.float) :
  _to_float v scale = Ok None ↔
  absent_or_sentinel v ∨ ∃ s, v = VStr s ∧ has_digit s = false.
Proof.
  split.
  - destruct v as [|b|n|x|s].
    + intros _. left. by left.
    + unfold _to_float. simpl. by destruct (Float.of_int _).
    + unfold _to_float. simpl. by destruct (Float.of_int _).
    + done.
    + intros Hv. destruct (_is_na (VStr s)) eqn:Hna.
      { left. by apply is_na_iff. }
      right. exists s. split; [done|].
      destruct (has_digit s) eqn:Hd; [|done]. exfalso.
      destruct (NumberFacts.search_has_digit s Hd) as [t Ht].
      destruct (TextFacts.search_parses s t Ht) as [x Hx].
      revert Hv. unfold _to_float. rewrite Hna. simpl. by rewrite Ht, Hx.
  - intros [Hv | (s & -> & Hs)].
    + unfold _to_float. by rewrite (is_na_absent_or_sentinel v Hv).
    + by apply to_float_text_no_digit.
Qed.

Lemma to_float_none_iff_witness :
  _to_float (VStr "unsupported") Float.one = Ok None.
Proof.
  apply (to_float_none_iff (VStr "unsupported") Float.one).
  right. exists "unsupported". split; reflexivity.
Defined.

Module SuffixFacts.
Import Text.

Lemma all_digits_starts d : all_digits d = true → d ≠ "" → starts_with_digit d = true.
Proof. destruct d; [done|]. simpl. by intros [? _]%andb_true_iff. Qed.

Lemma span_digits_suffix d u :
  all_digits d = true → starts_with_digit u = false → span_digits (d +:+ u) = (d, u).
Proof.
  intros Hd Hu. destruct u as [|c u].
  - rewrite NumberFacts.append_nil. by apply TextFacts.span_digits_all.
  - by apply TextFacts.span_digits_app.
Qed.

Lemma unit_suffix_no_digit u : unit_suffix u → starts_with_digit u = false.
Proof. destruct u; [done|]. by intros [? _]. Qed.

(** The unsigned part of the pattern, on a numeral followed by a unit,
    matches the numeral. *)
Lemma match_unsigned_numeral t u :
  decimal_numeral t → unit_suffix u → match_unsigned (t +:+ u) = Some t.
Proof.
  intros (ip & Hip & Hne & Ht) Hu. unfold match_unsigned.
  destruct Ht as [-> | (fp & Hfp & Hfne & ->)].
  - rewrite span_digits_suffix by (done || by apply unit_suffix_no_digit).
    destruct ip as [|a ip]; [done|].
    destruct u as [|c u]; [done|]. destruct Hu as [_ Hc].
    destruct c as [[] [] [] [] [] [] [] []]; congruence.
  - rewrite SentinelFacts.app_assoc_string, (SentinelFacts.append_cons "." fp u).
    rewrite TextFacts.span_digits_app by done.
    rewrite span_digits_suffix by (done || by apply unit_suffix_no_digit).
    destruct ip as [|a ip]; [done|]. by destruct fp.
Qed.

Lemma numeral_starts t : decimal_numeral t → starts_with_digit t = true.
Proof.
  intros (ip & Hip & Hne & Ht).
  pose proof (all_digits_starts ip Hip Hne) as Hd.
  destruct Ht as [-> | (fp & _ & _ & ->)]; [done|]. by destruct ip.
Qed.

Lemma search_numeral t u :
  decimal_numeral t → unit_suffix u → rx_number_search (t +:+ u) = Some t.
Proof.
  intros Ht Hu. pose proof (numeral_starts t Ht) as Hd.
  pose proof (match_unsigned_numeral t u Ht Hu) as Hm.
  destruct t as [|a t]; [done|]. rewrite SentinelFacts.append_cons in *.
  cbn [rx_number_search rx_number_match].
  rewrite (NumberFacts.digit_not_sign a Hd). by rewrite Hm.
Qed.

(** The same behind a sign: the sign belongs to the match. *)
Lemma search_signed a t u :
  is_sign a = true → decimal_numeral t → unit_suffix u →
  rx_number_search (String a (t +:+ u)) = Some (String a t).
Proof.
  intros Ha Ht Hu. cbn [rx_number_search rx_number_match].
  by rewrite Ha, (match_unsigned_numeral t u Ht Hu).
Qed.

Lemma float_of_unsigned_numeral t :
  decimal_numeral t →
  ∃ m k, ∀ neg, float_of_unsigned neg t = Ok (Float.of_decimal neg m k).
Proof.
  intros (ip & Hip & Hne & Ht). unfold float_of_unsigned.
  destruct ip as [|a ip]; [done|].
  destruct Ht as [-> | (fp & Hfp & Hfne & ->)].
  - rewrite TextFacts.span_digits_all by done.
    destruct (TextFacts.read_digits_all (String a ip) 0 Hip) as [m Hm].
    rewrite Hm. by eexists _, _.
  - rewrite TextFacts.span_digits_app by done.
    destruct fp as [|b fp]; [done|].
    destruct (TextFacts.read_digits_all (String a ip +:+ String b fp) 0) as [m Hm].
    { by apply TextFacts.all_digits_app. }
    rewrite Hm. by eexists _, _.
Qed.

Lemma numeral_not_na t u : starts_with_digit t = true → _is_na (VStr (t +:+ u)) = false.
Proof.
  intros Hd. destruct (_is_na (VStr (t +:+ u))) eqn:Hna; [|done].
  apply is_na_no_digit in Hna. rewrite NumberFacts.has_digit_app in Hna.
  by rewrite (NumberFacts.has_digit_starts t Hd) in Hna.
Qed.

End SuffixFacts.

(** X3. A unit written after a reading is ignored: for a decimal numeral
    followed by nothing or by text that starts with neither a digit nor a
    point, the normaliser returns what it returns for the numeral alone,
    and that is a number. *)
Theorem to_float_ignores_unit (t u : string) (scale : Float.float) :
  decimal_numeral t → unit_suffix u →
  _to_float (VStr (t +:+ u)) scale = _to_float (VStr t) scale ∧
  ∃ x, _to_float (VStr t) scale = Ok (Some x).
Proof.
  intros Ht Hu.
  pose proof (SuffixFacts.numeral_starts t Ht) as Hd.
  destruct (SuffixFacts.float_of_unsigned_numeral t Ht) as (m & k & Hx).
  specialize (Hx false).
  assert (Hnum : Text.float_of_numeral t = Ok (Float.of_decimal false m k)).
  { destruct t as [|a t]; [done|]. unfold Text.float_of_numeral.
    pose proof (NumberFacts.digit_not_sign a Hd) as [H43 H45]%orb_false_iff.
    by rewrite H45, H43. }
  assert (Hread : ∀ u', unit_suffix u' →
    _to_float (VStr (t +:+ u')) scale
      = Ok (Some (Float.mul (Float.of_decimal false m k) scale))).
  { intros u' Hu'. unfold _to_float.
    rewrite (SuffixFacts.numeral_not_na t u' Hd). simpl.
    by rewrite (SuffixFacts.search_numeral t u' Ht Hu'), Hnum. }
  pose proof (Hread "" I) as Hbare. rewrite NumberFacts.append_nil in Hbare.
  split; [by rewrite (Hread u Hu), Hbare | by eexists].
Qed.

Lemma to_float_ignores_unit_witness :
  _to_float (VStr ("45.0" +:+ "C")) Float.one = _to_float (VStr "45.0") Float.one.
Proof.
  apply (to_float_ignores_unit "45.0" "C" Float.one).
  - exists "45". split; [reflexivity|]. split; [discriminate|].
    right. exists "0". split; [reflexivity|]. split; [discriminate|reflexivity].
  - split; [reflexivity|discriminate].
Defined.

(** ** Signs *)

Module SignFacts.

Lemma round_aux_opp s m e l :
  binary_round_aux Float.prec Float.emax (negb s) m e l
  = SFopp (binary_round_aux Float.prec Float.emax s m e l).
Proof.
  unfold binary_round_aux.
  destruct (shr_fexp _ _ m e l) as [mrs' e'].
  destruct (shr_fexp _ _ _ e' loc_Exact) as [mrs'' e''].
  destruct (shr_m mrs''); [done| |done].
  by destruct (e'' <=? Float.emax - Float.prec)%Z.
Qed.

Lemma of_decimal_opp m k :
  Float.of_decimal true m k = SFopp (Float.of_decimal false m k).
Proof.
  unfold Float.of_decimal. destruct m as [|p]; [done|].
  unfold SFdiv. destruct (SFdiv_core_binary _ _ _ _ _ _) as [[mz ez] lz].
  apply (round_aux_opp false).
Qed.

Lemma mul_opp x y : Float.mul (SFopp x) y = SFopp (Float.mul x y).
Proof.
  unfold Float.mul.
  destruct x as [sx|sx| |sx mx ex], y as [sy|sy| |sy my ey]; simpl; try done;
    try (by destruct sx, sy).
  rewrite <- round_aux_opp. by destruct sx, sy.
Qed.

End SignFacts.

Lemma to_float_text s scale :
  _is_na (VStr s) = false →
  _to_float (VStr s) scale =
  match Text.rx_number_search s with
  | None => Ok None
  | Some t =>
      match Text.float_of_numeral t with
      | Ok x => Ok (Some (Float.mul x scale))
      | Raise e => Raise e
      end
  end.
Proof. intros Hna. unfold _to_float. by rewrite Hna. Qed.

(** X4. A sign written immediately before a reading is read with it: a
    minus gives the negated number of the unsigned text, for any scale,
    and a plus changes nothing. *)
Theorem to_float_sign (t u : string) (scale : Float.float) :
  decimal_numeral t → unit_suffix u →
  ∃ x, _to_float (VStr (t +:+ u)) scale = Ok (Some x) ∧
       _to_float (VStr (String "-" (t +:+ u))) scale = Ok (Some (SFopp x)) ∧
       _to_float (VStr (String "+" (t +:+ u))) scale = Ok (Some x).
Proof.
  intros Ht Hu.
  pose proof (SuffixFacts.numeral_starts t Ht) as Hd.
  destruct (SuffixFacts.float_of_unsigned_numeral t Ht) as (m & k & Hnum).
  pose proof (Hnum false) as Hpos. pose proof (Hnum true) as Hneg.
  assert (Hna : ∀ a, _is_na (VStr (String a (t +:+ u))) = false).
  { intros a. destruct (_is_na _) eqn:E; [|done]. apply is_na_no_digit in E.
    simpl in E. rewrite NumberFacts.has_digit_app in E.
    rewrite (NumberFacts.has_digit_starts t Hd) in E. by destruct (Text.is_digit a). }
  exists (Float.mul (Float.of_decimal false m k) scale). split; [|split].
  - rewrite to_float_text by apply (SuffixFacts.numeral_not_na t u Hd).
    rewrite (SuffixFacts.search_numeral t u Ht Hu).
    destruct t as [|a t]; [done|]. unfold Text.float_of_numeral.
    pose proof (NumberFacts.digit_not_sign a Hd) as [H43 H45]%orb_false_iff.
    by rewrite H45, H43, Hpos.
  - rewrite to_float_text by apply Hna.
    rewrite (SuffixFacts.search_signed "-" t u eq_refl Ht Hu).
    change (Text.float_of_numeral (String "-" t)) with (Text.float_of_unsigned true t).
    by rewrite Hneg, SignFacts.of_decimal_opp, SignFacts.mul_opp.
  - rewrite to_float_text by apply Hna.
    rewrite (SuffixFacts.search_signed "+" t u eq_refl Ht Hu).
    change (Text.float_of_numeral (String "+" t)) with (Text.float_of_unsigned false t).
    by rewrite Hpos.
Qed.

Lemma to_float_sign_witness :
  ∃ x, _to_float (VStr ("12" +:+ " W")) Float.one = Ok (Some x) ∧
       _to_float (VStr (String "-" ("12" +:+ " W"))) Float.one = Ok (Some (SFopp x)) ∧
       _to_float (VStr (String "+" ("12" +:+ " W"))) Float.one = Ok (Some x).
Proof.
  apply (to_float_sign "12" " W" Float.one).
  - exists "12". split; [reflexivity|]. split; [discriminate|]. by left.
  - split; [reflexivity|discriminate].
Defined.

(** ** The registry is only ever written *)

Section Writers.

Lemma apply_writes_app ws1 ws2 s :
  apply_writes (ws1 ++ ws2) s = apply_writes ws2 (apply_writes ws1 s).
Proof.
  revert s. induction ws1 as [|[k x] ws1 IH]; intros s; simpl; [done|]. apply IH.
Qed.

Lemma lookup_apply_writes ws s k :
  apply_writes ws s !! k = match written ws k with Some y => Some y | None => s !! k end.
Proof.
  revert s. induction ws as [|[k' x] ws IH]; intros s; simpl; [done|].
  rewrite IH. destruct (written ws k); [done|].
  case_decide as Hk.
  - subst k'. apply lookup_insert_eq.
  - by apply lookup_insert_ne.
Qed.

Lemma written_elem ws k y : written ws k = Some y → (k, y) ∈ ws.
Proof.
  induction ws as [|[k' x] ws IH]; simpl; [done|].
  destruct (written ws k) as [z|].
  - intros [= ->]. right. by apply IH.
  - case_decide as Hk; [|done]. intros [= ->]. subst k'. left.
Qed.

Lemma apply_writes_idem ws s : apply_writes ws (apply_writes ws s) = apply_writes ws s.
Proof.
  apply map_eq. intros k. rewrite !lookup_apply_writes. by destruct (written ws k).
Qed.

Lemma state_eta st : mkState (samples st) (records st ++ []) = st.
Proof. destruct st. simpl. by rewrite app_nil_r. Qed.

Lemma writer_ret {A} (a : A) : writer (mret a) (Ok a) [] [].
Proof. intros st. simpl. by rewrite state_eta. Qed.

Lemma writer_lift {A} (r : result A) : writer (lift r) r [] [].
Proof. intros st. simpl. by rewrite state_eta. Qed.

Lemma writer_log l msg :
  writer (logger_log l msg) (Ok tt) [] (if enabled l then [(l, msg)] else []).
Proof.
  intros st. unfold logger_log, modify, emit. destruct (enabled l); simpl; [done|].
  by rewrite state_eta.
Qed.

Lemma writer_bind_ok {A B} (c : M A) (f : A → M B) a r ws1 ws2 ms1 ms2 :
  writer c (Ok a) ws1 ms1 → writer (f a) r ws2 ms2 →
  writer (c ≫= f) r (ws1 ++ ws2) (ms1 ++ ms2).
Proof.
  intros Hc Hf st. unfold mbind, M_bind. rewrite Hc, Hf. simpl.
  by rewrite apply_writes_app, app_assoc.
Qed.

Lemma writer_bind_raise {A B} (c : M A) (f : A → M B) e ws ms :
  writer c (Raise e) ws ms → writer (c ≫= f) (Raise e) ws ms.
Proof. intros Hc st. unfold mbind, M_bind. by rewrite Hc. Qed.

Context {A : Type}.
Variable P : write → Prop.

Lemma writes_only_quiet (c : M A) : quietly_writes_only P c → writes_only P c.
Proof. intros (r & ws & Hc & HP). by exists r, ws, []. Qed.

Lemma quiet_ret (a : A) : quietly_writes_only P (mret a).
Proof. exists (Ok a), []. split; [apply writer_ret|constructor]. Qed.

Lemma quiet_lift (r : result A) : quietly_writes_only P (lift r).
Proof. exists r, []. split; [apply writer_lift|constructor]. Qed.

Lemma writes_only_ret (a : A) : writes_only P (mret a).
Proof. apply writes_only_quiet, quiet_ret. Qed.

Lemma writes_only_lift (r : result A) : writes_only P (lift r).
Proof. apply writes_only_quiet, quiet_lift. Qed.

End Writers.

Lemma quiet_bind {A B} P (c : M A) (f : A → M B) :
  quietly_writes_only P c → (∀ a, quietly_writes_only P (f a)) →
  quietly_writes_only P (c ≫= f).
Proof.
  intros ([a|e] & ws1 & Hc & H1) Hf.
  - destruct (Hf a) as (r & ws2 & Hfa & H2). exists r, (ws1 ++ ws2). split.
    + apply (writer_bind_ok c f a r ws1 ws2 [] [] Hc Hfa).
    + by apply Forall_app.
  - exists (Raise e), ws1. split; [by apply writer_bind_raise|done].
Qed.

Lemma writes_only_bind {A B} P (c : M A) (f : A → M B) :
  writes_only P c → (∀ a, writes_only P (f a)) → writes_only P (c ≫= f).
Proof.
  intros ([a|e] & ws1 & ms1 & Hc & H1) Hf.
  - destruct (Hf a) as (r & ws2 & ms2 & Hfa & H2).
    exists r, (ws1 ++ ws2), (ms1 ++ ms2). split.
    + by apply (writer_bind_ok c f a r).
    + by apply Forall_app.
  - exists (Raise e), ws1, ms1. split; [by apply writer_bind_raise|done].
Qed.

Lemma quiet_for_each {A} P (l : list A) (body : A → M unit) :
  (∀ a, quietly_writes_only P (body a)) → quietly_writes_only P (for_each l body).
Proof.
  intros Hbody. induction l as [|a l IH]; simpl; [apply quiet_ret|].
  apply quiet_bind; [apply Hbody|]. by intros _.
Qed.

Lemma writes_only_for_each {A} P (l : list A) (body : A → M unit) :
  (∀ a, writes_only P (body a)) → writes_only P (for_each l body).
Proof.
  intros Hbody. induction l as [|a l IH]; simpl; [apply writes_only_ret|].
  apply writes_only_bind; [apply Hbody|]. by intros _.
Qed.

Lemma writes_only_log P l msg : writes_only P (logger_log l msg).
Proof. eexists _, [], _. split; [apply writer_log|constructor]. Qed.

Lemma quiet_weaken {A} (P Q : write → Prop) (c : M A) :
  (∀ w, P w → Q w) → quietly_writes_only P c → quietly_writes_only Q c.
Proof.
  intros HPQ (r & ws & Hc & HP). exists r, ws. split; [done|].
  by eapply Forall_impl.
Qed.

Section Publishing.

Variable repr : Float.float → string.
Variable P : write → Prop.

Lemma quiet_labels_set g kw x :
  (∀ lv, Gauge_labels repr g kw = Ok lv → P ((g, lv), x)) →
  quietly_writes_only P (labels_set repr g kw x).
Proof.
  intros HP. destruct (Gauge_labels repr g kw) as [lv|e] eqn:Hlv.
  - exists (Ok tt), [((g, lv), x)]. split; [|by repeat constructor; apply HP].
    intros st. rewrite labels_set_eq, Hlv. unfold set_sample. simpl.
    by rewrite app_nil_r.
  - exists (Raise e), []. split; [|constructor].
    intros st. rewrite labels_set_eq, Hlv. simpl. by rewrite state_eta.
Qed.

Lemma quiet_set_if_not_none g kw value :
  (∀ lv x, Gauge_labels repr g kw = Ok lv → P ((g, lv), x)) →
  quietly_writes_only P (_set_if_not_none repr g kw value).
Proof.
  intros HP. destruct value as [x|]; [|apply quiet_ret].
  destruct (Gauge_labels repr g kw) as [lv|e] eqn:Hlv.
  - exists (Ok tt), [((g, lv), x)]. split; [|by repeat constructor; eapply HP].
    intros st. unfold _set_if_not_none, try_except.
    rewrite labels_set_eq, Hlv. unfold set_sample. simpl. by rewrite app_nil_r.
  - exists (Ok tt), []. split; [|constructor].
    intros st. unfold _set_if_not_none, try_except.
    rewrite labels_set_eq, Hlv. simpl. by rewrite state_eta.
Qed.

Lemma quiet_set_from g kw v :
  (∀ lv x, Gauge_labels repr g kw = Ok lv → P ((g, lv), x)) →
  quietly_writes_only P (set_from repr g kw v).
Proof.
  intros HP. apply quiet_bind; [apply quiet_lift|].
  intros value. by apply quiet_set_if_not_none.
Qed.

Lemma quiet_set_sub g kw sub m key name :
  (∀ lv x, Gauge_labels repr g (kw ++ [(sub, VStr name)]) = Ok lv → P ((g, lv), x)) →
  quietly_writes_only P (set_sub repr g kw sub m (key, name)).
Proof.
  intros HP. apply quiet_bind; [apply quiet_lift|].
  intros [x|]; [|apply quiet_ret]. apply quiet_labels_set. intros lv. apply HP.
Qed.

End Publishing.

(** X5. [_set_if_not_none] never raises and adds no record to the log (its
    DEBUG line is below the level of the logger). With keyword
    names that are not those of the gauge, where [labels] raises
    [ValueError] and a bare [labels(...).set(...)] would end the cycle, it
    leaves the state as it is; with the right names and a number it sets
    the sample. *)
Theorem set_if_not_none_never_raises
    (repr : Float.float → string) (g : gauge) (kw : list (string * pyval))
    (value : option Float.float) (st : state) :
  (_set_if_not_none repr g kw value st).1 = Ok tt ∧
  records (_set_if_not_none repr g kw value st).2 = records st ∧
  (∀ x, value = Some x → ¬ kw.*1 ≡ₚ labelnames g →
     _set_if_not_none repr g kw value st = (Ok tt, st) ∧
     labels_set repr g kw x st = (Raise ValueError, st)) ∧
  (∀ x, value = Some x → kw.*1 ≡ₚ labelnames g →
     ∃ lv, Gauge_labels repr g kw = Ok lv ∧
           _set_if_not_none repr g kw value st = (Ok tt, set_sample (g, lv) x st)).
Proof.
  destruct value as [x|]; [|by repeat split].
  unfold _set_if_not_none, try_except. rewrite !labels_set_eq.
  unfold Gauge_labels. case_decide as Hkw; simpl.
  - split; [done|]. split; [done|]. split.
    + intros x0 _ Hn. by destruct Hn.
    + intros x0 [= <-] _. by eexists.
  - split; [done|]. split; [done|]. split; [|done].
    intros x0 [= <-] _. split; [done|].
    rewrite labels_set_eq. unfold Gauge_labels. by rewrite decide_False.
Qed.

Lemma set_if_not_none_never_raises_witness :
  _set_if_not_none sample_repr gpuUsage [("device", VStr "X")] (Some f37_5) empty_state
  = (Ok tt, empty_state).
Proof.
  destruct (set_if_not_none_never_raises sample_repr gpuUsage [("device", VStr "X")]
              (Some f37_5) empty_state) as (_ & _ & Hbad & _).
  apply (Hbad f37_5 eq_refl).
  intros Hp. apply Permutation_length in Hp. discriminate.
Defined.

Lemma Gauge_labels_perm repr g kw :
  kw.*1 ≡ₚ labelnames g →
  Gauge_labels repr g kw = Ok ((λ l, py_str repr (kwarg kw l)) <$> labelnames g).
Proof. intros Hp. unfold Gauge_labels. by rewrite decide_True. Qed.

Ltac device_write_goal :=
  split; [reflexivity | split; [discriminate | first [reflexivity | discriminate]]].

Ltac quiet_device :=
  repeat first
  [ apply quiet_ret
  | apply quiet_lift
  | apply quiet_set_from;
      intros ? ? Hlv; rewrite Gauge_labels_perm in Hlv by reflexivity;
      injection Hlv as <-; device_write_goal
  | apply quiet_set_sub;
      intros ? ? Hlv; rewrite Gauge_labels_perm in Hlv by reflexivity;
      injection Hlv as <-; device_write_goal
  | apply quiet_labels_set;
      intros ? Hlv; rewrite Gauge_labels_perm in Hlv by reflexivity;
      injection Hlv as <-; device_write_goal
  | apply quiet_bind; [|intros ?]
  | match goal with
    | |- quietly_writes_only _ (match ?a with _ => _ end) => destruct a
    end ].

Lemma process_device_writes repr m :
  quietly_writes_only (device_write repr m) (process_device repr m).
Proof.
  unfold process_device, temperatures, usage, power, voltages, fan,
    clocks_current, clocks_average, energy, pcie, device_info.
  cbn beta zeta iota delta [for_each].
  quiet_device.
Qed.

Lemma device_write_cycle repr m w : device_write repr m w → cycle_write w.
Proof.
  intros (_ & Hsoft & Hone) [Hd | Hs]; [by apply Hone | done].
Qed.

Lemma process_snapshot_writes repr rsmi_ver rlib_ver data :
  quietly_writes_only cycle_write (process_snapshot repr rsmi_ver rlib_ver data).
Proof.
  apply quiet_bind.
  - unfold software_info. destruct (item data "system") as [sys|]; [|apply quiet_ret].
    destruct (sys !! "Driver version") as [dv|]; [|apply quiet_ret].
    apply quiet_labels_set. by intros lv _ _.
  - intros _. apply quiet_for_each. intros [card m].
    destruct (String.eqb card "system"); [apply quiet_ret|].
    apply (quiet_weaken (device_write repr m)); [apply device_write_cycle|].
    apply process_device_writes.
Qed.

Lemma poll_cycle_writes repr rsmi_ver rlib_ver r :
  writes_only cycle_write (poll_cycle repr rsmi_ver rlib_ver r).
Proof.
  apply writes_only_bind.
  - unfold getGPUMetrics.
    apply writes_only_bind; [apply writes_only_lift|]. intros out.
    apply writes_only_bind; [apply writes_only_lift|]. intros metrics.
    apply writes_only_bind; [apply writes_only_log|]. intros _.
    apply writes_only_ret.
  - intros data. apply writes_only_bind; [|intros _; apply writes_only_log].
    apply writes_only_quiet, process_snapshot_writes.
Qed.

Lemma get_versions_writes P r : writes_only P (_get_versions r).
Proof.
  destruct r as [out| |].
  - eexists (Ok _), [], []. split; [|constructor]. intros st. simpl.
    by rewrite state_eta.
  - eexists (Ok _), [], [_]. split; [|constructor]. by intros st.
  - eexists (Raise _), [], []. split; [|constructor]. intros st. simpl.
    by rewrite state_eta.
Qed.

Lemma main_writes repr version_run runs :
  writes_only cycle_write (main repr version_run runs).
Proof.
  apply writes_only_bind; [apply writes_only_log|]. intros _.
  apply writes_only_bind; [apply get_versions_writes|]. intros [rsmi_ver rlib_ver].
  apply writes_only_for_each. intros r. apply poll_cycle_writes.
Qed.

(** X8. What a run of the exporter does to the registry and to the log is
    fixed by what the tool printed: there are an outcome, a list of writes
    and a list of log records such that, from any state, [main] ends with
    that outcome, in the state obtained by making the writes in order and
    appending the records. Nothing is read from the registry and nothing
    is removed; info gauges are only ever written with 1. *)
Theorem main_is_a_list_of_writes
    (repr : Float.float → string) (version_run : run string)
    (runs : list (run payload)) :
  ∃ outcome ws msgs,
    (∀ st, main repr version_run runs st
           = (outcome, mkState (apply_writes ws (samples st)) (records st ++ msgs))) ∧
    Forall cycle_write ws.
Proof. apply main_writes. Qed.

(** X6. No sample is ever cleared: a sample that is in the registry
    before a run of the exporter is in it afterwards, however the run
    ends. *)
Theorem samples_are_never_removed
    (repr : Float.float → string) (version_run : run string)
    (runs : list (run payload)) (st : state) (k : sample_key) :
  is_Some (samples st !! k) →
  is_Some (samples (main repr version_run runs st).2 !! k).
Proof.
  destruct (main_writes repr version_run runs) as (r & ws & msgs & Hmain & _).
  rewrite Hmain. simpl. rewrite lookup_apply_writes.
  by destruct (written ws k).
Qed.

Lemma samples_are_never_removed_witness :
  is_Some (samples (main sample_repr NonZeroExit [Completed NotJSON] after_one_cycle).2
             !! (gpuUsage, device_X)).
Proof.
  apply (samples_are_never_removed sample_repr NonZeroExit [Completed NotJSON]
           after_one_cycle (gpuUsage, device_X)).
  vm_compute. by eexists.
Defined.

(** X7. A cycle is idempotent on the registry: when the tool prints the
    same snapshot again, the second cycle ends as the first did and
    leaves every sample as the first left it. *)
Theorem poll_cycle_idempotent
    (repr : Float.float → string) (rsmi_ver rlib_ver : string)
    (r : run payload) (st : state) :
  (poll_cycle repr rsmi_ver rlib_ver r (poll_cycle repr rsmi_ver rlib_ver r st).2).1
    = (poll_cycle repr rsmi_ver rlib_ver r st).1 ∧
  samples (poll_cycle repr rsmi_ver rlib_ver r
             (poll_cycle repr rsmi_ver rlib_ver r st).2).2
    = samples (poll_cycle repr rsmi_ver rlib_ver r st).2.
Proof.
  destruct (poll_cycle_writes repr rsmi_ver rlib_ver r) as (o & ws & msgs & Hc & _).
  rewrite !Hc. simpl. split; [done|]. apply apply_writes_idem.
Qed.

(** X9. Every sample that processing a device record sets or changes is
    attributable to the device: its first three label values are the
    identity of the record, and it is not a software-info sample. *)
Theorem device_samples_are_attributable
    (repr : Float.float → string) (m : gmap string pyval)
    (st : state) (k : sample_key) :
  samples (process_device repr m st).2 !! k ≠ samples st !! k →
  take 3 k.2 = identity repr m ∧ k.1 ≠ softwareInfo.
Proof.
  destruct (process_device_writes repr m) as (r & ws & Hc & Hws).
  rewrite Hc. simpl. rewrite lookup_apply_writes.
  destruct (written ws k) as [y|] eqn:Hy; [|done]. intros _.
  apply written_elem in Hy. rewrite Forall_forall in Hws.
  destruct (Hws _ Hy) as (Hid & Hsoft & _). done.
Qed.

Lemma device_samples_are_attributable_witness :
  take 3 device_X = identity sample_repr usage_record ∧ gpuUsage ≠ softwareInfo.
Proof.
  apply (device_samples_are_attributable sample_repr usage_record empty_state
           (gpuUsage, device_X)).
  vm_compute. discriminate.
Defined.

(** X10. Info gauges hold the constant 1: when every device-info and
    software-info sample of the registry is 1 before a run of the
    exporter, as in the empty registry at start-up, the same holds
    afterwards, however the run ends. *)
Theorem info_gauges_stay_one
    (repr : Float.float → string) (version_run : run string)
    (runs : list (run payload)) (st : state) :
  info_is_one (samples st) →
  info_is_one (samples (main repr version_run runs st).2).
Proof.
  intros Hst g lv x.
  destruct (main_writes repr version_run runs) as (r & ws & msgs & Hmain & Hws).
  rewrite Hmain. simpl. rewrite lookup_apply_writes.
  destruct (written ws (g, lv)) as [y|] eqn:Hy; [|apply Hst].
  intros [= ->] Hg. apply written_elem in Hy. rewrite Forall_forall in Hws.
  by apply (Hws _ Hy).
Qed.

Lemma info_gauges_stay_one_witness :
  info_is_one (samples (main sample_repr NonZeroExit one_cycle empty_state).2).
Proof.
  apply (info_gauges_stay_one sample_repr NonZeroExit one_cycle empty_state).
  intros g lv x Hx. vm_compute in Hx. discriminate.
Defined.

(** ** Devices and the system entry within one snapshot *)

Lemma device_preserves_other repr m k :
  take 3 k.2 ≠ identity repr m ∨ k.1 = softwareInfo →
  preserves k (process_device repr m).
Proof.
  intros Hk st.
  destruct (process_device_writes repr m) as (r & ws & Hc & Hws).
  rewrite Hc. simpl. rewrite lookup_apply_writes.
  destruct (written ws k) as [y|] eqn:Hy; [|done].
  apply written_elem in Hy. rewrite Forall_forall in Hws.
  destruct (Hws _ Hy) as (Hid & Hsoft & _). by destruct Hk.
Qed.

Lemma process_device_outcome repr m st1 st2 :
  (process_device repr m st1).1 = (process_device repr m st2).1.
Proof.
  destruct (process_device_writes repr m) as (r & ws & Hc & _). by rewrite !Hc.
Qed.

(** The software-info step: it never raises, and it sets one sample at
    most. *)
Lemma software_info_eq repr rsmi_ver rlib_ver data st :
  software_info repr rsmi_ver rlib_ver data st =
  match item data "system" with
  | Some sys =>
      match sys !! "Driver version" with
      | Some dv =>
          (Ok tt, set_sample
                    (softwareInfo, [Text.strip (py_str repr dv); rsmi_ver; rlib_ver])
                    Float.one st)
      | None => (Ok tt, st)
      end
  | None => (Ok tt, st)
  end.
Proof.
  unfold software_info. destruct (item data "system") as [sys|]; [|done].
  destruct (sys !! "Driver version") as [dv|]; [|done].
  by rewrite labels_set_eq.
Qed.

Lemma device_loop_preserves repr (data : snapshot) k :
  Forall (λ e, take 3 k.2 ≠ identity repr e.2 ∨ k.1 = softwareInfo) data →
  preserves k (for_each data (λ '(card, m),
    if String.eqb card "system" then mret tt else process_device repr m)).
Proof.
  intros Hdata. apply preserves_for_each.
  eapply Forall_impl; [exact Hdata|]. intros [card m] Hk. simpl in Hk.
  destruct (String.eqb card "system"); [apply preserves_ret|].
  by apply device_preserves_other.
Qed.

(** X11. The software-info sample of a cycle. When the snapshot has a
    "system" entry with a driver version, processing it leaves the
    software-info gauge at 1 under the trimmed [str] of the driver version
    and the two version strings of start-up, whatever the device records
    hold and even when one of them raises. Without such an entry no
    software-info sample is touched. *)
Theorem software_info_published
    (repr : Float.float → string) (rsmi_ver rlib_ver : string)
    (data : snapshot) (st : state) :
  (∀ sys dv,
     item data "system" = Some sys → sys !! "Driver version" = Some dv →
     samples (process_snapshot repr rsmi_ver rlib_ver data st).2
       !! (softwareInfo, [Text.strip (py_str repr dv); rsmi_ver; rlib_ver])
     = Some Float.one) ∧
  ((item data "system" = None ∨
    ∃ sys, item data "system" = Some sys ∧ sys !! "Driver version" = None) →
   ∀ lv, samples (process_snapshot repr rsmi_ver rlib_ver data st).2
           !! (softwareInfo, lv) = samples st !! (softwareInfo, lv)).
Proof.
  assert (Hloop : ∀ lv st1,
    samples (for_each data (λ '(card, m),
       if String.eqb card "system" then mret tt else process_device repr m) st1).2
      !! (softwareInfo, lv) = samples st1 !! (softwareInfo, lv)).
  { intros lv st1. apply (device_loop_preserves repr data (softwareInfo, lv)).
    apply Forall_forall. intros e _. by right. }
  unfold process_snapshot, mbind, M_bind. rewrite software_info_eq. split.
  - intros sys dv -> ->. rewrite Hloop. apply lookup_insert_eq.
  - intros [-> | (sys & -> & ->)] lv; by rewrite Hloop.
Qed.

Lemma software_info_published_witness :
  samples (process_snapshot sample_repr "2.3.1" "7.5.0" failing_snapshot empty_state).2
    !! (softwareInfo, [Text.strip (py_str sample_repr (VStr " 6.1 ")); "2.3.1"; "7.5.0"])
  = Some Float.one.
Proof.
  destruct (software_info_published sample_repr "2.3.1" "7.5.0"
              failing_snapshot empty_state) as [H _].
  apply (H system_record (VStr " 6.1 ")); vm_compute; reflexivity.
Defined.

Lemma device_loop_devices repr (data : snapshot) st :
  for_each data (λ '(card, m),
    if String.eqb card "system" then mret tt else process_device repr m) st =
  for_each (devices data) (λ e, process_device repr e.2) st.
Proof.
  revert st. unfold devices.
  induction data as [|[card m] data IH]; intros st; [done|].
  cbn [for_each]. rewrite filter_cons. cbn [fst].
  destruct (String.eqb_spec card "system") as [->|Hcard].
  - rewrite decide_False by (by intros H). apply IH.
  - rewrite decide_True by done. cbn [for_each snd].
    unfold mbind, M_bind.
    destruct (process_device repr m st) as [[[]|e] st1]; [apply IH|done].
Qed.

Lemma system_entry_skip_eq repr rsmi_ver rlib_ver data st :
  process_snapshot repr rsmi_ver rlib_ver data st =
  (software_info repr rsmi_ver rlib_ver data ;;
   for_each (devices data) (λ e, process_device repr e.2)) st.
Proof.
  unfold process_snapshot, mbind, M_bind.
  destruct (software_info repr rsmi_ver rlib_ver data st) as [[[]|e] st0]; [|done].
  apply device_loop_devices.
Qed.

(** X12. The "system" entry is not a device: the device loop of a
    snapshot does what processing its entries other than "system" does,
    in the order of the snapshot. *)
Theorem system_entry_is_skipped
    (repr : Float.float → string) (rsmi_ver rlib_ver : string)
    (data : snapshot) (st : state) :
  process_snapshot repr rsmi_ver rlib_ver data st =
  (software_info repr rsmi_ver rlib_ver data ;;
   for_each (devices data) (λ e, process_device repr e.2)) st.
Proof. apply system_entry_skip_eq. Qed.

(** ** A record within a snapshot *)

Lemma device_loop_preserves_devices repr (data : snapshot) k :
  Forall (λ e, take 3 k.2 ≠ identity repr e.2 ∨ k.1 = softwareInfo) (devices data) →
  preserves k (for_each data (λ '(card, m),
    if String.eqb card "system" then mret tt else process_device repr m)).
Proof.
  intros Hdata st. rewrite device_loop_devices. revert st.
  apply preserves_for_each. eapply Forall_impl; [exact Hdata|].
  intros e He. by apply device_preserves_other.
Qed.

Lemma metric_key_other repr m lm (l : snapshot) :
  Forall (λ e, identity repr e.2 ≠ identity repr m) l →
  Forall (λ e, take 3 (lm_key repr m lm).2 ≠ identity repr e.2
               ∨ (lm_key repr m lm).1 = softwareInfo) l.
Proof.
  intros Hl. eapply Forall_impl; [exact Hl|]. intros e He. left. simpl.
  intros Heq. apply He. by rewrite <- Heq.
Qed.

Lemma software_info_ok repr rsmi_ver rlib_ver data st :
  ∃ st0, software_info repr rsmi_ver rlib_ver data st = (Ok tt, st0).
Proof.
  rewrite software_info_eq.
  destruct (item data "system") as [sys|]; [|by eexists].
  destruct (sys !! "Driver version"); by eexists.
Qed.


(** When the loop reaches a record and processes it without error, what
    the record sets is still there when the loop ends, provided the
    devices after it have other identities. *)
Lemma device_loop_sets repr before card m after k y st s1 :
  card ≠ "system" →
  sets k y (process_device repr m) →
  Forall (λ e, take 3 k.2 ≠ identity repr e.2 ∨ k.1 = softwareInfo) (devices after) →
  for_each before (λ '(card, m),
    if String.eqb card "system" then mret tt else process_device repr m) st
    = (Ok tt, s1) →
  (process_device repr m s1).1 = Ok tt →
  samples (for_each (before ++ (card, m) :: after) (λ '(card, m),
    if String.eqb card "system" then mret tt else process_device repr m) st).2 !! k
  = Some y.
Proof.
  intros Hcard%String.eqb_neq Hsets Hafter Hbefore Hok.
  rewrite for_each_app, Hbefore. cbn [for_each]. rewrite Hcard.
  unfold mbind, M_bind.
  destruct (process_device repr m s1) as [[[]|e] s2] eqn:Hrun; [|done].
  rewrite (device_loop_preserves_devices repr after k Hafter s2).
  apply (Hsets s1 s2 Hrun).
Qed.


(** The loop reaches the end of a list of records each of which is
    processed without error. *)
Lemma device_loop_ok repr (data : snapshot) st0 st :
  Forall (λ e, (process_device repr e.2 st0).1 = Ok tt) (devices data) →
  ∃ s, for_each data (λ '(card, m),
         if String.eqb card "system" then mret tt else process_device repr m) st
       = (Ok tt, s).
Proof.
  intros Hdata. rewrite device_loop_devices. revert st.
  induction Hdata as [|e l He _ IH]; intros st; [by eexists|].
  cbn [for_each]. unfold mbind, M_bind.
  rewrite (process_device_outcome repr e.2 st0 st) in He.
  destruct (process_device repr e.2 st) as [[[]|x] s1]; [apply IH|done].
Qed.



(** The proviso of the second part is needed: a later card with the same
    identity labels writes to the same sample, and the cycle ends with
    the later reading. *)
Example pcie_speed_overwritten :
  identity sample_repr slower_record = identity sample_repr pcie_record ∧
  (poll_cycle sample_repr EmptyString EmptyString
     (Completed (Json [("card0", pcie_record); ("card1", slower_record)]))
     empty_state).1 = Ok tt ∧
  samples
    (poll_cycle sample_repr EmptyString EmptyString
       (Completed (Json [("card0", pcie_record); ("card1", slower_record)]))
       empty_state).2
    !! (pcieSpeedGTs, identity sample_repr pcie_record) = Some f8.
Proof. split; [|split]; vm_compute; reflexivity. Qed.

(** X15. Devices of one snapshot do not disturb each other, and an error
    on a later device does not undo an earlier one: when the loop reaches
    a device record (the device records before it in the snapshot are
    processed without error), the record itself is processed without
    error and a logical metric of it is normalised to a number, the sample
    of that metric holds the number (times 0.1 for the PCIe link speed)
    at the end of the snapshot, whatever the entries after it hold,
    provided the device records among them have identities other than
    its own. The system entry, wherever it stands, plays no part. *)
Theorem earlier_device_is_kept
    (repr : Float.float → string) (rsmi_ver rlib_ver card : string)
    (m : gmap string pyval) (before after : snapshot)
    (lm : logical_metric) (x : Float.float) (st : state) :
  card ≠ "system" →
  lm ∈ logical_metrics →
  lm_normalized m lm = Ok (Some x) →
  Forall (λ e, (process_device repr e.2 st).1 = Ok tt) (devices before) →
  (process_device repr m st).1 = Ok tt →
  Forall (λ e, identity repr e.2 ≠ identity repr m) (devices after) →
  samples (process_snapshot repr rsmi_ver rlib_ver
             (before ++ (card, m) :: after) st).2
    !! lm_key repr m lm = Some (lm_at_publish lm x).
Proof.
  intros Hcard Hin Hx Hbefore Hok Hafter.
  unfold process_snapshot, mbind, M_bind.
  destruct (software_info_ok repr rsmi_ver rlib_ver (before ++ (card, m) :: after) st)
    as [st0 ->].
  destruct (device_loop_ok repr before st st0 Hbefore) as [s1 Hs1].
  rewrite (process_device_outcome repr m st s1) in Hok.
  apply (device_loop_sets repr before card m after _ _ st0 s1 Hcard
           (process_device_sets repr m lm x Hin Hx)
           (metric_key_other repr m lm _ Hafter) Hs1 Hok).
Qed.

Lemma earlier_device_is_kept_witness :
  samples (process_snapshot sample_repr "" ""
             (cards_before ++ ("card1", pcie_record) :: cards_after_failing)
             empty_state).2
    !! lm_key sample_repr pcie_record pcie_speed_metric
  = Some (lm_at_publish pcie_speed_metric f160).
Proof.
  apply (earlier_device_is_kept sample_repr "" "" "card1" pcie_record
           cards_before cards_after_failing pcie_speed_metric f160 empty_state).
  - discriminate.
  - apply pcie_speed_metric_listed.
  - vm_compute. reflexivity.
  - constructor; [|constructor]. vm_compute. reflexivity.
  - vm_compute. reflexivity.
  - constructor; [|constructor]. vm_compute. discriminate.
Defined.

(** ** The version strings of start-up *)

Module VersionFacts.

Lemma search_unfold label out :
  Version.search label out =
  match
    match Version.strip_prefix label out with
    | Some r => Version.match_value r
    | None => None
    end
  with
  | Some v => Some v
  | None =>
      match out with
      | String _ out' => Version.search label out'
      | EmptyString => None
      end
  end.
Proof. by destruct out. Qed.

Lemma strip_prefix_app label r :
  Version.strip_prefix label (label +:+ r) = Some r.
Proof.
  induction label as [|a label IH]; simpl; [by destruct r|].
  by rewrite Ascii.eqb_refl.
Qed.

Lemma span_space_app w c r :
  Sentinel.all_space w = true → Text.is_space c = false →
  Version.span_space (w +:+ String c r) = (w, String c r).
Proof.
  intros Hw Hc. induction w as [|a w IH]; simpl.
  - by rewrite Hc.
  - simpl in Hw. apply andb_true_iff in Hw as [Ha Hw]. by rewrite Ha, IH.
Qed.

Lemma rest_of_line_app v tail :
  no_newline v = true →
  (tail = "" ∨ ∃ t, tail = String Version.newline t) →
  Version.rest_of_line (v +:+ tail) = v.
Proof.
  intros Hv Htail. induction v as [|a v IH]; simpl.
  - by destruct Htail as [->|(t & ->)].
  - simpl in Hv. apply andb_true_iff in Hv as [Ha Hv].
    apply negb_true_iff in Ha. by rewrite Ha, IH.
Qed.

Lemma match_value_line w v tail :
  Sentinel.all_space w = true →
  (∃ c v', v = String c v' ∧ Text.is_space c = false) →
  no_newline v = true →
  (tail = "" ∨ ∃ t, tail = String Version.newline t) →
  Version.match_value (w +:+ v +:+ tail) = Some v.
Proof.
  intros Hw (c & v' & -> & Hc) Hv Htail. unfold Version.match_value.
  change (String c v' +:+ tail) with (String c (v' +:+ tail)).
  rewrite span_space_app by done.
  change (String c (v' +:+ tail)) with (String c v' +:+ tail).
  by rewrite rest_of_line_app.
Qed.

Lemma search_skip label pre rest :
  occurs_before label pre rest = false →
  Version.search label (pre +:+ rest) = Version.search label rest.
Proof.
  induction pre as [|a pre IH]; [done|].
  cbn [occurs_before]. intros H. rewrite search_unfold.
  destruct (Version.strip_prefix label (String a pre +:+ rest)); [done|].
  by apply IH.
Qed.

Lemma search_line label out v :
  version_line label out v → Version.search label out = Some v.
Proof.
  intros (pre & w & tail & -> & Hpre & Hw & Hc & Hv & Htail).
  rewrite search_skip by done. rewrite search_unfold, strip_prefix_app.
  by rewrite match_value_line.
Qed.

(** What the patterns capture sits on one line. *)
Lemma no_newline_rest_of_line s : no_newline (Version.rest_of_line s) = true.
Proof.
  induction s as [|a s IH]; [done|]. simpl.
  destruct (Ascii.eqb a Version.newline) eqn:Ha; [done|]. simpl. by rewrite Ha.
Qed.

Lemma last_on_line_not_newline w a :
  Version.last_on_line w = Some a → Ascii.eqb a Version.newline = false.
Proof.
  induction w as [|b w IH]; [done|]. simpl.
  destruct (Version.last_on_line w) as [c|].
  - intros [= ->]. by apply IH.
  - destruct (Ascii.eqb b Version.newline) eqn:Hb; [done|]. by intros [= <-].
Qed.

Lemma no_newline_match_value s v :
  Version.match_value s = Some v → no_newline v = true.
Proof.
  unfold Version.match_value. destruct (Version.span_space s) as [w [|c r]].
  - destruct (Version.last_on_line w) as [a|] eqn:Ha; [|done].
    intros [= <-]. simpl. by rewrite (last_on_line_not_newline _ _ Ha).
  - intros [= <-]. apply (no_newline_rest_of_line (String c r)).
Qed.

Lemma no_newline_search label out v :
  Version.search label out = Some v → no_newline v = true.
Proof.
  induction out as [|a out IH]; rewrite search_unfold.
  - destruct (Version.strip_prefix label "") as [r|]; [|done].
    destruct (Version.match_value r) as [u|] eqn:Hu; [|done].
    intros [= <-]. by eapply no_newline_match_value.
  - destruct (Version.strip_prefix label (String a out)) as [r|]; [|exact IH].
    destruct (Version.match_value r) as [u|] eqn:Hu; [|exact IH].
    intros [= <-]. by eapply no_newline_match_value.
Qed.

(** [strip] keeps a text on its line, and a second [strip] changes
    nothing. *)
Lemma no_newline_lstrip s : no_newline s = true → no_newline (Text.lstrip s) = true.
Proof.
  induction s as [|a s IH]; [done|]. intros Hs. simpl.
  destruct (Text.is_space a); [|done].
  simpl in Hs. apply andb_true_iff in Hs as [_ Hs]. by apply IH.
Qed.

Lemma no_newline_rstrip s : no_newline s = true → no_newline (Text.rstrip s) = true.
Proof.
  induction s as [|a s IH]; [done|]. intros Hs.
  simpl in Hs. apply andb_true_iff in Hs as [Ha Hs]. specialize (IH Hs). simpl.
  revert IH. destruct (Text.rstrip s) as [|b r]; intros IH.
  - destruct (Text.is_space a); [done|]. simpl. by rewrite Ha.
  - simpl. simpl in IH. by rewrite Ha, IH.
Qed.

Lemma lstrip_idem s : Text.lstrip (Text.lstrip s) = Text.lstrip s.
Proof.
  induction s as [|a s IH]; [done|]. simpl.
  destruct (Text.is_space a) eqn:Ha; [done|]. simpl. by rewrite Ha.
Qed.

Lemma rstrip_cons a s :
  Text.rstrip (String a s) =
  match Text.rstrip s with
  | EmptyString => if Text.is_space a then EmptyString else String a EmptyString
  | r => String a r
  end.
Proof. reflexivity. Qed.

Lemma rstrip_idem s : Text.rstrip (Text.rstrip s) = Text.rstrip s.
Proof.
  induction s as [|a s IH]; [done|]. rewrite rstrip_cons.
  destruct (Text.rstrip s) as [|b r] eqn:Hr.
  - destruct (Text.is_space a) eqn:Ha; [done|]. simpl. by rewrite Ha.
  - by rewrite rstrip_cons, IH.
Qed.

Lemma rstrip_lstrip s : Text.rstrip (Text.lstrip s) = Text.lstrip (Text.rstrip s).
Proof.
  induction s as [|a s IH]; [done|].
  rewrite rstrip_cons. cbn [Text.lstrip]. destruct (Text.is_space a) eqn:Ha.
  - rewrite IH. destruct (Text.rstrip s) as [|b r]; [done|].
    cbn [Text.lstrip]. by rewrite Ha.
  - rewrite rstrip_cons. destruct (Text.rstrip s) as [|b r]; rewrite ?Ha;
      cbn [Text.lstrip]; by rewrite Ha.
Qed.

Lemma strip_idem s : Text.strip (Text.strip s) = Text.strip s.
Proof.
  unfold Text.strip. by rewrite rstrip_lstrip, rstrip_idem, lstrip_idem.
Qed.

Lemma clean_strip v : no_newline v = true → clean (Text.strip v).
Proof.
  intros Hv. split; [|apply strip_idem].
  unfold Text.strip. by apply no_newline_lstrip, no_newline_rstrip.
Qed.

Lemma clean_found label out :
  clean (match Version.search label out with Some g => Text.strip g | None => "" end).
Proof.
  destruct (Version.search label out) as [g|] eqn:Hg; [|done].
  eapply clean_strip, no_newline_search, Hg.
Qed.

End VersionFacts.

(** X13. Whatever the version command prints, the two version strings
    that start-up returns (and that label the software-info gauge) are
    clean: each sits on one line and has no whitespace at either end. *)
Theorem versions_are_clean (r : run string) (st st' : state) (v1 v2 : string) :
  _get_versions r st = (Ok (v1, v2), st') → clean v1 ∧ clean v2.
Proof.
  unfold _get_versions. destruct r as [out| |]; simpl.
  - intros [= <- <- _]. split; apply VersionFacts.clean_found.
  - intros [= <- <- _]. by split.
  - done.
Qed.

Lemma versions_are_clean_witness :
  clean (Text.strip rsmi_line) ∧ clean (Text.strip rlib_line).
Proof.
  apply (versions_are_clean (Completed versions_output) empty_state empty_state).
  vm_compute. reflexivity.
Defined.

(** X14. When the output of the version command gives [a] for the label
    "ROCM-SMI version:" and [b] for the label "ROCM-SMI-LIB version:",
    start-up returns [a] and [b] without the whitespace around them (such
    as a carriage return at the end of the line), logs nothing and leaves
    the registry alone. *)
Theorem get_versions_reads_lines (r : run string) (out a b : string) (st : state) :
  check_output r = Ok out →
  version_line "ROCM-SMI version:" out a →
  version_line "ROCM-SMI-LIB version:" out b →
  _get_versions r st = (Ok (Text.strip a, Text.strip b), st).
Proof.
  intros Hout Ha%VersionFacts.search_line Hb%VersionFacts.search_line.
  unfold _get_versions. by rewrite Hout, Ha, Hb.
Qed.

Lemma get_versions_reads_lines_witness :
  _get_versions (Completed versions_output) empty_state =
  (Ok (Text.strip rsmi_line, Text.strip rlib_line), empty_state).
Proof.
  apply (get_versions_reads_lines (Completed versions_output) versions_output).
  - reflexivity.
  - exists "", " ", (String Version.newline
                      ("ROCM-SMI-LIB version: " +:+ rlib_line +:+
                       String Version.newline "")).
    repeat split; try (vm_compute; reflexivity).
    + exists "2"%char, ("." +:+ "3.1" +:+ String (ascii_of_N 13) "").
      split; vm_compute; reflexivity.
    + right. eexists. reflexivity.
  - exists ("ROCM-SMI version: " +:+ rsmi_line +:+ String Version.newline ""),
           " ", (String Version.newline "").
    repeat split; try (vm_compute; reflexivity).
    + exists "7"%char, ("." +:+ "5.0" +:+ String (ascii_of_N 13) "").
      split; vm_compute; reflexivity.
    + right. eexists. reflexivity.
Defined.

(** ** Cycles that complete *)

Section Succeeds.

Context {A : Type}.

Lemma succeeds_ret (a : A) : succeeds (mret a : M A).
Proof. intros st. by exists a. Qed.

Lemma succeeds_lift (a : A) : succeeds (lift (Ok a)).
Proof. intros st. by exists a. Qed.

Lemma succeeds_bind {B} (c : M A) (f : A → M B) :
  succeeds c → (∀ a, succeeds (f a)) → succeeds (c ≫= f).
Proof.
  intros Hc Hf st. unfold mbind, M_bind.
  destruct (Hc st) as [a Ha]. destruct (c st) as [r st1]. simpl in Ha. subst r.
  apply Hf.
Qed.

End Succeeds.

Lemma succeeds_for_each {A} (l : list A) (body : A → M unit) :
  Forall (λ a, succeeds (body a)) l → succeeds (for_each l body).
Proof.
  induction 1 as [|a l Ha _ IH]; [by exists tt|].
  cbn [for_each]. apply succeeds_bind; [done|]. by intros _.
Qed.

Lemma succeeds_log l msg : succeeds (logger_log l msg).
Proof. intros st. by exists tt. Qed.

Lemma to_float_representable v scale :
  representable v = true → ∃ r, _to_float v scale = Ok r.
Proof.
  destruct v as [|b|n|x|s]; intros Hv.
  - by eexists.
  - unfold _to_float. simpl. destruct (of_int_bool b) as [x ->]. by eexists.
  - unfold _to_float. simpl. simpl in Hv.
    destruct (Float.of_int n); [by eexists|done].
  - by eexists.
  - apply to_float_text_total.
Qed.

Section HealthyRecord.

Variable repr : Float.float → string.
Variable m : gmap string pyval.
Hypothesis Hm : healthy_record m.

Lemma representable_default k d :
  representable d = true → representable (dict_get_default m k d) = true.
Proof.
  intros Hd. unfold dict_get_default. destruct (m !! k) as [v|] eqn:Hk; [|done].
  apply (Hm k v Hk).
Qed.

Lemma representable_get k : representable (get m k) = true.
Proof. by apply representable_default. Qed.

Lemma representable_dict_get k : representable (dict_get m k) = true.
Proof. destruct k as [k|]; [by apply representable_default|done]. Qed.

Lemma representable_reconcile keys : representable (reconcile m keys) = true.
Proof. apply representable_dict_get. Qed.

Lemma succeeds_to_float v :
  representable v = true → succeeds (lift (_to_float v Float.one)).
Proof.
  intros Hv. destruct (to_float_representable v Float.one Hv) as [r ->].
  apply succeeds_lift.
Qed.

Lemma succeeds_labels_set g kw x :
  kw.*1 ≡ₚ labelnames g → succeeds (labels_set repr g kw x).
Proof.
  intros Hkw st. exists tt. rewrite labels_set_eq. unfold Gauge_labels.
  by rewrite decide_True.
Qed.

Lemma succeeds_set_if_not_none g kw value :
  succeeds (_set_if_not_none repr g kw value).
Proof.
  intros st. exists tt. destruct value as [x|]; [|done].
  unfold _set_if_not_none, try_except. rewrite labels_set_eq.
  by destruct (Gauge_labels repr g kw).
Qed.

Lemma succeeds_set_from g kw v :
  representable v = true → succeeds (set_from repr g kw v).
Proof.
  intros Hv. apply succeeds_bind; [by apply succeeds_to_float|].
  intros value. apply succeeds_set_if_not_none.
Qed.

Lemma succeeds_set_sub g kw sub key name :
  (kw ++ [(sub, VStr name)]).*1 ≡ₚ labelnames g →
  succeeds (set_sub repr g kw sub m (key, name)).
Proof.
  intros Hkw. apply succeeds_bind; [apply succeeds_to_float, representable_get|].
  intros [x|]; [by apply succeeds_labels_set|apply succeeds_ret].
Qed.

Lemma process_device_succeeds : succeeds (process_device repr m).
Proof.
  unfold process_device, temperatures, usage, power, voltages, fan,
    clocks_current, clocks_average, energy, pcie, device_info, speed_01.
  cbn beta zeta iota delta [for_each].
  repeat first
  [ apply succeeds_ret
  | apply succeeds_set_from;
      first [apply representable_reconcile | apply representable_get
            | apply representable_dict_get]
  | apply succeeds_set_sub; reflexivity
  | apply succeeds_labels_set; reflexivity
  | apply succeeds_to_float, representable_get
  | apply succeeds_bind; [|intros ?]
  | match goal with
    | |- succeeds (match ?a with _ => _ end) => destruct a
    end ].
Qed.

End HealthyRecord.

Lemma software_info_succeeds repr rsmi_ver rlib_ver data :
  succeeds (software_info repr rsmi_ver rlib_ver data).
Proof.
  intros st. exists tt. rewrite software_info_eq.
  destruct (item data "system") as [sys|]; [|done]. by destruct (sys !! _).
Qed.

Lemma process_snapshot_succeeds repr rsmi_ver rlib_ver data :
  Forall (λ e, healthy_record e.2) (devices data) →
  succeeds (process_snapshot repr rsmi_ver rlib_ver data).
Proof.
  intros Hdata st. rewrite system_entry_skip_eq.
  revert st. apply succeeds_bind; [apply software_info_succeeds|]. intros _.
  apply succeeds_for_each. eapply Forall_impl; [exact Hdata|].
  intros e He. by apply process_device_succeeds.
Qed.

Lemma poll_cycle_succeeds repr rsmi_ver rlib_ver r :
  healthy_run r → succeeds (poll_cycle repr rsmi_ver rlib_ver r).
Proof.
  intros (out & data & Hout & Hjson & Hdata) st. exists tt.
  unfold poll_cycle, getGPUMetrics, logger_log, modify, mbind, M_bind, mret, M_ret, lift.
  rewrite Hout, Hjson.
  destruct (process_snapshot_succeeds repr rsmi_ver rlib_ver data Hdata
              (emit INFO RetrievedMetrics st)) as [[] Hok].
  destruct (process_snapshot repr rsmi_ver rlib_ver data _) as [res st1].
  simpl in Hok. by subst res.
Qed.

(** X16. The loop is only left through a failed acquisition or an
    integer beyond the range of a double: when on every run the status
    command exits with status 0 and [json.loads] returns a snapshot whose
    device records hold representable values only (text, floats,
    booleans, null, integers within range), every cycle completes and the
    loop goes on to the next one, whatever the registry held before and
    whatever the system record holds. *)
Theorem healthy_cycles_complete
    (repr : Float.float → string) (rsmi_ver rlib_ver : string)
    (runs : list (run payload)) (st : state) :
  Forall healthy_run runs →
  (poll_loop repr rsmi_ver rlib_ver runs st).1 = Ok tt.
Proof.
  intros Hruns.
  assert (H : succeeds (poll_loop repr rsmi_ver rlib_ver runs)).
  { apply succeeds_for_each. eapply Forall_impl; [exact Hruns|].
    intros r Hr. by apply poll_cycle_succeeds. }
  destruct (H st) as [[] Hst]. exact Hst.
Qed.

Lemma healthy_cycles_complete_witness :
  (poll_loop sample_repr "" "" [Completed (Json [("card0", usage_record)])]
     empty_state).1 = Ok tt.
Proof.
  apply (healthy_cycles_complete sample_repr "" ""
           [Completed (Json [("card0", usage_record)])] empty_state).
  constructor; [|constructor].
  exists (Json [("card0", usage_record)]), [("card0", usage_record)].
  split; [reflexivity|]. split; [reflexivity|].
  constructor; [|constructor]. unfold usage_record.
  apply map_Forall_insert_2; [reflexivity|]. by apply map_Forall_singleton.
Defined.
